(** * Reward valuation and ranking engine: [src/lib/ranker.js]

    A shallow embedding of the card valuation engine ([valueFor]), its
    helpers ([isWithin], [activeRotatingWindow], [applyCapSplitPercent],
    [offerAppliesToCard], [offerMatchesCategory], [offerActiveNow]) and the
    ranker ([rankCards]).

    Modelling conventions.
    - A JavaScript number is a rational ([Q]): the engine only adds,
      subtracts, multiplies, divides by the constant 100 and takes minima and
      maxima of numbers read from JSON, so every value it handles is finite.
      Rounding of IEEE doubles is not modelled; numeric results are compared
      with [==] ([Qeq]).
    - An optional JSON field is an [option]: [None] stands for an absent
      (undefined) or [null] field.  The engine treats the two alike
      everywhere ([||], [??], [?.], [Number.isFinite], [Number(x) || d]).
    - [card_scope], which the code inspects dynamically, is an arbitrary
      JSON value ([JsVal]).
    - Plain objects used as dictionaries are [gmap]s, the [Set] of enrolled
      offer ids is a [gset].
    - The two number-to-text conversions the notes use ([toFixed(2)] and the
      conversion of a number inside a template literal) are the operations of
      the class [NumberFormat]; the properties hold for every instance, and
      [exactFormat] is the instance the examples are evaluated with.
    - [Array.prototype.sort] is the stable sort of ECMAScript 2019.
    - Keys an object inherits from [Object.prototype] are not modelled in the
      dictionaries of the engine's inputs; the two tables of
      [pickCategoryFromOffers] account for them ([inheritedKey]).

    The file also models the pure computations the application makes before
    it calls the engine (liveness and eligibility of offers, the enrollment
    toggle, the category picked for a merchant, the wallet with its two
    configurable cards, the rotating payload) and relates them to the
    engine. *)

From Stdlib Require Import QArith Qminmax Qabs Qround Lqa Lia Ascii Sorted Permutation.
From stdpp Require Import gmap strings list pretty.

Local Open Scope Q_scope.

(** ** JavaScript values and operators *)

#[local] Unset Elimination Schemes.
Inductive JsVal : Type :=
| JsUndefined
| JsNull
| JsBool (b : bool)
| JsNumber (q : Q)
| JsString (s : string)
| JsArray (elems : list JsVal)
| JsObject (fields : list (string * JsVal)).
#[local] Set Elimination Schemes.

(** [Array.isArray(v)] *)
Definition isArray (v : JsVal) : bool :=
  match v with JsArray _ => true | _ => false end.

(** [v === s] for a string [s]. *)
Definition strictEqString (v : JsVal) (s : string) : bool :=
  match v with JsString t => String.eqb t s | _ => false end.

(** [arr.includes(s)] for a string [s]: some element is strictly equal to it. *)
Definition includesString (arr : list JsVal) (s : string) : bool :=
  existsb (fun v => strictEqString v s) arr.

(** [arr.includes(s)] on an array of strings. *)
Definition includes (arr : list string) (s : string) : bool :=
  existsb (String.eqb s) arr.

(** Truthiness of a number: [0] is the only falsy finite number. *)
Definition truthy (q : Q) : bool := negb (Qeq_bool q 0).

(** Truthiness of an optional number. *)
Definition truthyNum (x : option Q) : bool :=
  match x with Some q => truthy q | None => false end.

(** Truthiness of an optional string: the empty string is falsy. *)
Definition truthyStr (x : option string) : bool :=
  match x with Some s => negb (String.eqb s "") | None => false end.

(** [Number(x) || d] *)
Definition numberOr (x : option Q) (d : Q) : Q :=
  match x with
  | Some q => if truthy q then q else d
  | None => d
  end.

(** [a || b] on optional numbers: the first truthy operand, else [b]. *)
Definition orElse (a b : option Q) : option Q :=
  if truthyNum a then a else b.

(** [a ?? b] on optional numbers: the first operand that is not nullish. *)
Definition nullish (a b : option Q) : option Q :=
  match a with Some _ => a | None => b end.

(** [s || null] on optional strings. *)
Definition orNull (s : option string) : option string :=
  if truthyStr s then s else None.

(** [a > b] and [a < b] on numbers. *)
Definition Qgtb (a b : Q) : bool := negb (Qle_bool a b).
Definition Qltb (a b : Q) : bool := negb (Qle_bool b a).

(** Number formatting used by the notes. *)
Class NumberFormat := {
  toFixed2 : Q -> string;        (* n.toFixed(2) *)
  numberToString : Q -> string   (* `${n}` *)
}.

(** ** Data model *)

Module Rule.
Record t := {
  start : option string;
  end_ : option string;
  category_ids : option (list string);   (* [None]: not an array *)
  rate : option Q;
  after_rate : option Q;
  cap_cents : option Q;
  activation_required : bool
}.
End Rule.

Module Card.
Record t := {
  id : string;
  program : string;
  type : option string;
  base : option Q;
  cpp_default : option Q;
  categories : option (gmap string Q);
  rotating_rules : option (list Rule.t)   (* [None]: not an array *)
}.
End Card.

Module UserState.
Record t := {
  activated : bool;
  remainingCapCents : option Q
}.
(** The empty object [{}]. *)
Definition empty : t := {| activated := false; remainingCapCents := None |}.
End UserState.

Module Window.
Record t := {
  active : bool;
  reason : option string;
  boostRatePercent : Q;
  afterRatePercent : option Q;
  remainingCapCents : Q
}.
End Window.

Module CapSplit.
Record t := {
  boostVal : Q;
  baseVal : Q;
  boostCents : Q;
  baseCents : Q
}.
End CapSplit.

Module OfferValue.
Record t := {
  fixed_amount : option Q;
  percent : option Q;
  points_multiplier : option Q;
  max_back_cents : option Q;
  max_amount_cents : option Q
}.
End OfferValue.

Module Offer.
Record t := {
  id : string;
  offer_type : string;
  value : option OfferValue.t;
  min_spend_cents : option Q;
  categories : option (list string);
  card_scope : JsVal;
  start_at : option string;
  end_at : option string;
  enrollment_required : bool
}.
End Offer.

Module Params.
Record t := {
  amountCents : Q;
  categoryId : string;
  programOverrides : gmap string Q;
  nowISO : string;
  userRotating : gmap string UserState.t;
  userEnrolledOfferIds : gset string
}.
End Params.

(** The result of [valueFor]. *)
Module Valuation.
Record t := {
  dollars : Q;
  baseValue : Q;
  bonusValue : Q;
  notes : list string
}.
End Valuation.

(** An element of the list [rankCards] returns: [{ card, ...v }]. *)
Module Ranked.
Record t := {
  card : Card.t;
  dollars : Q;
  baseValue : Q;
  bonusValue : Q;
  notes : list string
}.
End Ranked.

(** ** Defaults and utilities *)

Definition CPP_DEFAULTS : gmap string Q :=
  {[ "UR" := 1.25; "MR" := 1.0; "Cap1" := 1.0; "TYP" := 1.0 ]}.

Definition money {fmt : NumberFormat} (n : Q) : string := "$" +:+ toFixed2 n.

Definition toISOEndOfDay (dateStr : string) : string := dateStr +:+ "T23:59:59Z".
Definition toISOStartOfDay (dateStr : string) : string := dateStr +:+ "T00:00:00Z".

Definition isWithin (nowISO : string) (startISO endISO : option string) : bool :=
  if truthyStr startISO && from_option (String.ltb nowISO) false startISO then false
  else if truthyStr endISO && from_option (fun e => String.ltb e nowISO) false endISO then false
  else true.

(** ** Rotating helpers *)

(** The window of a rule, [isWithin(nowISO, start, end)] of the loop body. *)
Definition ruleWindowContains (r : Rule.t) (nowISO : string) : bool :=
  let start := if truthyStr (Rule.start r) then toISOStartOfDay <$> Rule.start r else None in
  let end_ := if truthyStr (Rule.end_ r) then toISOEndOfDay <$> Rule.end_ r else None in
  isWithin nowISO start end_.

(** [Array.isArray(r.category_ids) && r.category_ids.includes(categoryId)] *)
Definition ruleHasCategory (r : Rule.t) (categoryId : string) : bool :=
  match Rule.category_ids r with
  | Some ids => includes ids categoryId
  | None => false
  end.

(** The descriptor the loop returns for the rule [r] it stops at. *)
Definition windowOf (r : Rule.t) (u : UserState.t) : Window.t :=
  let needsActivation := Rule.activation_required r in
  let activated := if needsActivation then UserState.activated u else true in
  let capCents := match Rule.cap_cents r with Some c => Qmax 0 c | None => 0 end in
  let remainingCapCents :=
    Qmax 0 (match UserState.remainingCapCents u with Some c => c | None => capCents end) in
  {| Window.active := activated;
     Window.reason := if activated then None else Some "Activation required"%string;
     Window.boostRatePercent := numberOr (Rule.rate r) 0;
     Window.afterRatePercent := Rule.after_rate r;
     Window.remainingCapCents := remainingCapCents |}.

(** The [for (const r of rules)] loop. *)
Fixpoint scanRules (rules : list Rule.t) (cardId categoryId nowISO : string)
    (userRotating : gmap string UserState.t) : option Window.t :=
  match rules with
  | [] => None
  | r :: rest =>
      if negb (ruleWindowContains r nowISO) then
        scanRules rest cardId categoryId nowISO userRotating
      else if negb (ruleHasCategory r categoryId) then
        scanRules rest cardId categoryId nowISO userRotating
      else
        let u := default UserState.empty (userRotating !! cardId) in
        Some (windowOf r u)
  end.

Definition activeRotatingWindow (card : Card.t) (categoryId nowISO : string)
    (userRotating : gmap string UserState.t) : option Window.t :=
  match Card.rotating_rules card with
  | None => None
  | Some rules =>
      if (length rules =? 0)%nat then None
      else scanRules rules (Card.id card) categoryId nowISO userRotating
  end.

Definition applyCapSplitPercent (amountCents boostPercent basePercent remainingCapCents : Q)
    : CapSplit.t :=
  let boostCents := Qmin amountCents (Qmax 0 remainingCapCents) in
  let baseCents := amountCents - boostCents in
  let boostVal := (boostCents / 100) * (boostPercent / 100) in
  let baseVal := (baseCents / 100) * (basePercent / 100) in
  {| CapSplit.boostVal := boostVal; CapSplit.baseVal := baseVal;
     CapSplit.boostCents := boostCents; CapSplit.baseCents := baseCents |}.

(** ** Offer helpers *)

Definition offerAppliesToCard (off : Offer.t) (card : Card.t) : bool :=
  if strictEqString (Offer.card_scope off) "all" then true
  else match Offer.card_scope off with
       | JsArray scope => includesString scope (Card.id card)
       | _ => false
       end.

Definition offerMatchesCategory (off : Offer.t) (categoryId : string) : bool :=
  match Offer.categories off with
  | None => true
  | Some cats => if (length cats =? 0)%nat then true else includes cats categoryId
  end.

Definition offerActiveNow (off : Offer.t) (nowISO : string) : bool :=
  let startISO := orNull (Offer.start_at off) in
  let endISO := orNull (Offer.end_at off) in
  isWithin nowISO startISO endISO.

(** ** Core value calculator *)

(** The three accumulators of [valueFor]: [baseValue], [bonusValue], [notes]. *)
Module Acc.
Record t := {
  baseValue : Q;
  bonusValue : Q;
  notes : list string
}.
End Acc.

(** [notes.push(s)] *)
Definition push (s : string) (a : Acc.t) : Acc.t :=
  {| Acc.baseValue := Acc.baseValue a; Acc.bonusValue := Acc.bonusValue a;
     Acc.notes := Acc.notes a ++ [s] |}.

(** [baseValue += x] and [bonusValue += x] *)
Definition addBase (x : Q) (a : Acc.t) : Acc.t :=
  {| Acc.baseValue := Acc.baseValue a + x; Acc.bonusValue := Acc.bonusValue a;
     Acc.notes := Acc.notes a |}.
Definition addBonus (x : Q) (a : Acc.t) : Acc.t :=
  {| Acc.baseValue := Acc.baseValue a; Acc.bonusValue := Acc.bonusValue a + x;
     Acc.notes := Acc.notes a |}.

(** The accumulators at the start of [valueFor]: [baseValue = 0], [bonusValue = 0],
    [notes = []]. *)
Definition freshAcc : Acc.t :=
  {| Acc.baseValue := 0; Acc.bonusValue := 0; Acc.notes := [] |}.

Definition ENROLL_NOTE : string := "Offer requires enrollment".

Section ValueFor.
Context {fmt : NumberFormat}.

(** [programOverrides[card.program] ?? (Number.isFinite(card.cpp_default) ?
    card.cpp_default : undefined) ?? CPP_DEFAULTS[card.program] ?? 1.0] *)
Definition resolveCpp (card : Card.t) (programOverrides : gmap string Q) : Q :=
  default 1.0
    (nullish (nullish (programOverrides !! Card.program card) (Card.cpp_default card))
             (CPP_DEFAULTS !! Card.program card)).

(** [card.type || "points"] *)
Definition cardType (card : Card.t) : string :=
  match Card.type card with
  | Some t => if String.eqb t "" then "points" else t
  | None => "points"
  end%string.

(** [Number.isFinite(cats[categoryId]) ? Number(cats[categoryId]) : Number(card.base) || 1]
    with [cats = card.categories || {}]. *)
Definition staticMultiplier (card : Card.t) (categoryId : string) : Q :=
  let cats := default ∅ (Card.categories card) in
  match cats !! categoryId with
  | Some m => m
  | None => numberOr (Card.base card) 1
  end.

(** Step 1 of [valueFor]: base earnings, with the rotating override. *)
Definition baseEarnings (card : Card.t) (p : Params.t) (cpp : Q) : Acc.t :=
  let amount := Params.amountCents p / 100 in
  let staticMult := staticMultiplier card (Params.categoryId p) in
  let acc0 := freshAcc in
  if String.eqb (cardType card) "cashback" then
    let win := activeRotatingWindow card (Params.categoryId p) (Params.nowISO p)
                 (Params.userRotating p) in
    match win with
    | Some w =>
        if Window.active w then
          let boostPercent := Window.boostRatePercent w in
          let afterPercent := default staticMult (Window.afterRatePercent w) in
          let s := applyCapSplitPercent (Params.amountCents p) boostPercent afterPercent
                     (Window.remainingCapCents w) in
          push ("Rotating " +:+ numberToString boostPercent +:+ "% applied to "
                  +:+ money (CapSplit.boostCents s / 100) +:+ " (cap remaining)")
            (addBonus (CapSplit.boostVal s) (addBase (CapSplit.baseVal s) acc0))
        else
          let pct := staticMult in
          push "Activation required for rotating bonus"
            (addBase (amount * (pct / 100)) acc0)
    | None =>
        let pct := staticMult in
        addBase (amount * (pct / 100)) acc0
    end
  else
    let mult := staticMult in
    addBase (amount * mult * (cpp / 100)) acc0.

(** The percent-with-cap block shared by the [statement_credit] and
    [percent_back] branches: [p] is [Number(percent) || 0]. *)
Definition percentBack (amount : Q) (v : option OfferValue.t) (acc : Acc.t) : Acc.t :=
  let p := numberOr (v ≫= OfferValue.percent) 0 in
  let offerValue := amount * (p / 100) in
  let maxBackCents := orElse (v ≫= OfferValue.max_back_cents) (v ≫= OfferValue.max_amount_cents) in
  match maxBackCents with
  | Some c =>
      if truthy c then
        let maxBackDollars := c / 100 in
        let offerValue := Qmin offerValue maxBackDollars in
        addBonus offerValue
          (push (numberToString p +:+ "% back (capped at " +:+ money maxBackDollars +:+ ")") acc)
      else
        addBonus offerValue (push (numberToString p +:+ "% back") acc)
  | None =>
      addBonus offerValue (push (numberToString p +:+ "% back") acc)
  end.

(** Step 2 of [valueFor]: the body of the [for (const off of offersForCard)] loop. *)
Definition offerStep (card : Card.t) (p : Params.t) (cpp : Q) (acc : Acc.t) (off : Offer.t)
    : Acc.t :=
  let amount := Params.amountCents p / 100 in
  if negb (offerActiveNow off (Params.nowISO p)) then acc
  else if negb (offerAppliesToCard off card) then acc
  else if negb (offerMatchesCategory off (Params.categoryId p)) then acc
  else if Offer.enrollment_required off
          && negb (bool_decide (Offer.id off ∈ Params.userEnrolledOfferIds p)) then
    if bool_decide (ENROLL_NOTE ∈ Acc.notes acc) then acc else push ENROLL_NOTE acc
  else if String.eqb (Offer.offer_type off) "statement_credit" then
    let min := numberOr (Offer.min_spend_cents off) 0 in
    if Qle_bool min (Params.amountCents p) then
      match Offer.value off ≫= OfferValue.fixed_amount with
      | Some f =>
          if truthy f then
            push (money (f / 100) +:+ " statement credit") (addBonus (f / 100) acc)
          else if truthyNum (Offer.value off ≫= OfferValue.percent) then
            percentBack amount (Offer.value off) acc
          else acc
      | None =>
          if truthyNum (Offer.value off ≫= OfferValue.percent) then
            percentBack amount (Offer.value off) acc
          else acc
      end
    else acc
  else if String.eqb (Offer.offer_type off) "percent_back" then
    percentBack amount (Offer.value off) acc
  else if String.eqb (Offer.offer_type off) "points_multiplier" then
    let extraX := numberOr (Offer.value off ≫= OfferValue.points_multiplier) 0 in
    push ("+" +:+ numberToString extraX +:+ "x points")
      (if String.eqb (cardType card) "cashback"
       then addBonus (amount * (extraX / 100)) acc
       else addBonus (amount * extraX * (cpp / 100)) acc)
  else acc.

Definition valueFor (card : Card.t) (p : Params.t) (offersForCard : list Offer.t)
    : Valuation.t :=
  let cpp := resolveCpp card (Params.programOverrides p) in
  let acc := fold_left (offerStep card p cpp) offersForCard (baseEarnings card p cpp) in
  {| Valuation.dollars := Acc.baseValue acc + Acc.bonusValue acc;
     Valuation.baseValue := Acc.baseValue acc;
     Valuation.bonusValue := Acc.bonusValue acc;
     Valuation.notes := Acc.notes acc |}.

End ValueFor.

(** ** Public API: the ranker *)

(** The comparator handed to [results.sort]. *)
Definition compareFn (a b : Ranked.t) : Q :=
  if negb (Qeq_bool (Ranked.dollars b) (Ranked.dollars a))
  then Ranked.dollars b - Ranked.dollars a
  else Ranked.bonusValue b - Ranked.bonusValue a.

(** [Array.prototype.sort(cmp)] is a stable sort: [y] goes before [x] only
    when [cmp x y > 0].  It is modelled by a stable insertion sort; the
    elements are inserted from the last one to the first, so the element being
    inserted preceded, in the input, every element already placed. *)
Fixpoint insertBy {A : Type} (cmp : A -> A -> Q) (x : A) (sorted : list A) : list A :=
  match sorted with
  | [] => [x]
  | y :: rest => if Qgtb (cmp x y) 0 then y :: insertBy cmp x rest else x :: sorted
  end.

Definition sortBy {A : Type} (cmp : A -> A -> Q) (l : list A) : list A :=
  foldr (insertBy cmp) [] l.

(** The object [{ card, ...v }] pushed for each card. *)
Definition rankedOf (card : Card.t) (v : Valuation.t) : Ranked.t :=
  {| Ranked.card := card;
     Ranked.dollars := Valuation.dollars v;
     Ranked.baseValue := Valuation.baseValue v;
     Ranked.bonusValue := Valuation.bonusValue v;
     Ranked.notes := Valuation.notes v |}.

(** The list [results] before it is sorted. *)
Definition valuations {fmt : NumberFormat} (cards : list Card.t) (params : Params.t)
    (offersByCard : gmap string (list Offer.t)) : list Ranked.t :=
  map (fun card =>
         let offers := default [] (offersByCard !! Card.id card) in
         rankedOf card (valueFor card params offers))
      cards.

Definition rankCards {fmt : NumberFormat} (cards : list Card.t) (params : Params.t)
    (offersByCard : gmap string (list Offer.t)) : list Ranked.t :=
  sortBy compareFn (valuations cards params offersByCard).

(** ** A concrete number format, for evaluating the model on examples

    [toFixed2Exact] is [toFixed(2)] on an exact rational: the nearest
    multiple of 1/100, ties to the larger magnitude, with the sign of the
    argument.  [decimalString] prints integers as JavaScript does and other
    values by the digits of their decimal expansion (at most 17 after the
    point), which agrees with JavaScript on short decimal fractions. *)

Definition twoDigits (n : Z) : string :=
  ((if (n <? 10)%Z then "0" else "") +:+ pretty n)%string.

Definition toFixed2Exact (q : Q) : string :=
  let x := Qabs q in
  let n := Qfloor (x * 100 + (1 # 2)) in
  ((if Qltb q 0 then "-" else "") +:+ pretty (n / 100)%Z +:+ "." +:+ twoDigits (n mod 100)%Z)%string.

Fixpoint fractionDigits (fuel : nat) (r d : Z) : string :=
  match fuel with
  | O => ""
  | S fuel' =>
      if (r =? 0)%Z then ""
      else (pretty (r * 10 / d)%Z +:+ fractionDigits fuel' (r * 10 mod d)%Z d)%string
  end.

Definition decimalString (q : Q) : string :=
  let n := Z.abs (Qnum q) in
  let d := Zpos (Qden q) in
  let frac := fractionDigits 17 (n mod d)%Z d in
  ((if Qltb q 0 then "-" else "") +:+ pretty (n / d)%Z
     +:+ (if String.eqb frac "" then "" else "." +:+ frac))%string.

Definition exactFormat : NumberFormat :=
  {| toFixed2 := toFixed2Exact; numberToString := decimalString |}.

(** ** Sample data (the scenarios of the specification) *)

Definition groceryCard : Card.t :=
  {| Card.id := "grocer"; Card.program := "cashback"; Card.type := Some "cashback"%string;
     Card.base := Some 1; Card.cpp_default := None;
     Card.categories := Some {[ "grocery"%string := 3 ]};
     Card.rotating_rules := None |}.

Definition groceryRule : Rule.t :=
  {| Rule.start := None; Rule.end_ := None;
     Rule.category_ids := Some ["grocery"%string];
     Rule.rate := Some 5; Rule.after_rate := Some 1; Rule.cap_cents := Some 150000;
     Rule.activation_required := true |}.

Definition rotatingCard : Card.t :=
  {| Card.id := "discover_it"; Card.program := "cashback"; Card.type := Some "cashback"%string;
     Card.base := Some 1; Card.cpp_default := None;
     Card.categories := None;
     Card.rotating_rules := Some [groceryRule] |}.

Definition pointsCard : Card.t :=
  {| Card.id := "sapphire"; Card.program := "UR"; Card.type := Some "points"%string;
     Card.base := Some 1; Card.cpp_default := None;
     Card.categories := Some {[ "dining"%string := 3 ]};
     Card.rotating_rules := Some [groceryRule] |}.

Definition sampleParams (amountCents : Q) (ur : gmap string UserState.t) : Params.t :=
  {| Params.amountCents := amountCents; Params.categoryId := "grocery";
     Params.programOverrides := ∅; Params.nowISO := "2025-03-15T12:00:00.000Z";
     Params.userRotating := ur; Params.userEnrolledOfferIds := ∅ |}.

Definition activatedState : gmap string UserState.t :=
  {[ "discover_it"%string :=
       {| UserState.activated := true; UserState.remainingCapCents := Some 100000 |} ]}.

Definition plainOffer (id type : string) (v : OfferValue.t) : Offer.t :=
  {| Offer.id := id; Offer.offer_type := type; Offer.value := Some v;
     Offer.min_spend_cents := None; Offer.categories := None;
     Offer.card_scope := JsString "all"; Offer.start_at := None; Offer.end_at := None;
     Offer.enrollment_required := false |}.

Definition nullScopeOffer : Offer.t :=
  {| Offer.id := "o-null"; Offer.offer_type := "percent_back";
     Offer.value := Some {| OfferValue.fixed_amount := None; OfferValue.percent := Some 10;
                            OfferValue.points_multiplier := None;
                            OfferValue.max_back_cents := None;
                            OfferValue.max_amount_cents := None |};
     Offer.min_spend_cents := None; Offer.categories := None;
     Offer.card_scope := JsNull; Offer.start_at := None; Offer.end_at := None;
     Offer.enrollment_required := false |}.

Definition endsNowOffer : Offer.t :=
  {| Offer.id := "o-ends"; Offer.offer_type := "percent_back";
     Offer.value := Some {| OfferValue.fixed_amount := None; OfferValue.percent := Some 10;
                            OfferValue.points_multiplier := None;
                            OfferValue.max_back_cents := None;
                            OfferValue.max_amount_cents := None |};
     Offer.min_spend_cents := None; Offer.categories := None;
     Offer.card_scope := JsString "all";
     Offer.start_at := Some "2025-01-01T00:00:00.000Z"%string;
     Offer.end_at := Some "2025-03-15T12:00:00.000Z"%string;
     Offer.enrollment_required := false |}.

(** A rule that matches but needs an activation the user has not made,
    followed by one that needs none. *)
Definition openRule : Rule.t :=
  {| Rule.start := Some "2025-01-01"%string; Rule.end_ := Some "2025-03-31"%string;
     Rule.category_ids := Some ["grocery"%string];
     Rule.rate := Some 4; Rule.after_rate := None; Rule.cap_cents := None;
     Rule.activation_required := false |}.

Definition expiredRule : Rule.t :=
  {| Rule.start := Some "2024-01-01"%string; Rule.end_ := Some "2024-03-31"%string;
     Rule.category_ids := Some ["grocery"%string];
     Rule.rate := Some 9; Rule.after_rate := None; Rule.cap_cents := None;
     Rule.activation_required := false |}.

Definition twoRuleCard : Card.t :=
  {| Card.id := "discover_it"; Card.program := "cashback"; Card.type := Some "cashback"%string;
     Card.base := Some 1; Card.cpp_default := None;
     Card.categories := None;
     Card.rotating_rules := Some [expiredRule; groceryRule; openRule] |}.

(** A card whose only rule runs from 2025-01-01 to 2025-03-31. *)
Definition quarterCard : Card.t :=
  {| Card.id := "quarterly"; Card.program := "cashback"; Card.type := Some "cashback"%string;
     Card.base := Some 1; Card.cpp_default := None;
     Card.categories := None;
     Card.rotating_rules := Some [openRule] |}.

Definition percentOffer (id : string) (percent : Q) (maxBack maxAmount : option Q) : Offer.t :=
  plainOffer id "percent_back"
    {| OfferValue.fixed_amount := None; OfferValue.percent := Some percent;
       OfferValue.points_multiplier := None; OfferValue.max_back_cents := maxBack;
       OfferValue.max_amount_cents := maxAmount |}.

(** [{percent: 10, max_back_cents: 0, max_amount_cents: 2000}] *)
Definition zeroCapOffer : Offer.t := percentOffer "o-zero" 10 (Some 0) (Some 2000).

(** [{percent: 10, max_back_cents: 2000}] *)
Definition cappedOffer : Offer.t := percentOffer "o-cap" 10 (Some 2000) None.

Definition enrollOffer (id : string) : Offer.t :=
  {| Offer.id := id; Offer.offer_type := "percent_back";
     Offer.value := Some {| OfferValue.fixed_amount := None; OfferValue.percent := Some 10;
                            OfferValue.points_multiplier := None;
                            OfferValue.max_back_cents := None;
                            OfferValue.max_amount_cents := None |};
     Offer.min_spend_cents := None; Offer.categories := None;
     Offer.card_scope := JsString "all"; Offer.start_at := None; Offer.end_at := None;
     Offer.enrollment_required := true |}.

(** A statement credit of minus $5.00 on purchases of $10.00 or more. *)
Definition negativeCreditOffer : Offer.t :=
  {| Offer.id := "o-neg"; Offer.offer_type := "statement_credit";
     Offer.value := Some {| OfferValue.fixed_amount := Some (-500); OfferValue.percent := None;
                            OfferValue.points_multiplier := None;
                            OfferValue.max_back_cents := None;
                            OfferValue.max_amount_cents := None |};
     Offer.min_spend_cents := Some 1000; Offer.categories := None;
     Offer.card_scope := JsString "all"; Offer.start_at := None; Offer.end_at := None;
     Offer.enrollment_required := false |}.

(** [{offer_type: "statement_credit", min_spend_cents: 2000,
      value: {percent: 10, max_back_cents: 2000}}] *)
Definition creditOffer : Offer.t :=
  {| Offer.id := "o-credit"; Offer.offer_type := "statement_credit";
     Offer.value := Some {| OfferValue.fixed_amount := None; OfferValue.percent := Some 10;
                            OfferValue.points_multiplier := None;
                            OfferValue.max_back_cents := Some 2000;
                            OfferValue.max_amount_cents := None |};
     Offer.min_spend_cents := Some 2000; Offer.categories := None;
     Offer.card_scope := JsString "all"; Offer.start_at := None; Offer.end_at := None;
     Offer.enrollment_required := false |}.

(** A second card with the earnings of [groceryCard]. *)
Definition groceryTwin : Card.t :=
  {| Card.id := "twin"; Card.program := "cashback"; Card.type := Some "cashback"%string;
     Card.base := Some 1; Card.cpp_default := None;
     Card.categories := Some {[ "grocery"%string := 3 ]};
     Card.rotating_rules := None |}.

(** More sample data: offers, user states and a small catalog. *)
Definition someValue : OfferValue.t :=
  {| OfferValue.fixed_amount := Some 500; OfferValue.percent := Some 10;
     OfferValue.points_multiplier := None; OfferValue.max_back_cents := Some 100;
     OfferValue.max_amount_cents := None |}.

Definition portalOffer : Offer.t := plainOffer "o-portal" "portal_deal" someValue.

Definition fixedCreditOffer : Offer.t := plainOffer "o-fixed" "statement_credit" someValue.

Definition emptyMultiplierOffer : Offer.t := plainOffer "o-points" "points_multiplier" someValue.

Definition expiredOffer : Offer.t :=
  {| Offer.id := "o-old"; Offer.offer_type := "percent_back"; Offer.value := Some someValue;
     Offer.min_spend_cents := None; Offer.categories := None;
     Offer.card_scope := JsString "all"; Offer.start_at := None;
     Offer.end_at := Some "2025-01-01T00:00:00.000Z"%string;
     Offer.enrollment_required := false |}.

Definition scopedOffer : Offer.t :=
  {| Offer.id := "o-scoped"; Offer.offer_type := "percent_back"; Offer.value := Some someValue;
     Offer.min_spend_cents := None; Offer.categories := None;
     Offer.card_scope := JsArray [JsString "sapphire"; JsString "amex_gold"];
     Offer.start_at := None; Offer.end_at := None;
     Offer.enrollment_required := false |}.

Definition categoryOffer (id : string) (cats : list string) : Offer.t :=
  {| Offer.id := id; Offer.offer_type := "percent_back"; Offer.value := Some someValue;
     Offer.min_spend_cents := None; Offer.categories := Some cats;
     Offer.card_scope := JsString "all"; Offer.start_at := None; Offer.end_at := None;
     Offer.enrollment_required := false |}.

Definition exhaustedState : gmap string UserState.t :=
  {[ "discover_it"%string :=
       {| UserState.activated := true; UserState.remainingCapCents := Some 0 |} ]}.

Definition boaCard : Card.t :=
  {| Card.id := "boa_ccp"; Card.program := "cashback"; Card.type := Some "cashback"%string;
     Card.base := Some 1; Card.cpp_default := None;
     Card.categories := Some {[ "chosen"%string := 3; "grocery"%string := 2 ]};
     Card.rotating_rules := None |}.

Definition citiCard : Card.t :=
  {| Card.id := "citi_custom_cash"; Card.program := "cashback";
     Card.type := Some "cashback"%string;
     Card.base := Some 1; Card.cpp_default := None;
     Card.categories := Some {[ "grocery"%string := 2 ]};
     Card.rotating_rules := None |}.

Definition sampleCatalog : list Card.t := [groceryCard; boaCard; citiCard; pointsCard].

(** ** Predicates used to state the properties *)

(** The two tests a rule must pass for the scan to stop at it. *)
Definition ruleMatches (r : Rule.t) (categoryId nowISO : string) : bool :=
  ruleWindowContains r nowISO && ruleHasCategory r categoryId.

(** The card with another [rotating_rules] field, the parameters with
    another [userRotating] field. *)
Definition withRotatingRules (card : Card.t) (rules : option (list Rule.t)) : Card.t :=
  {| Card.id := Card.id card; Card.program := Card.program card;
     Card.type := Card.type card; Card.base := Card.base card;
     Card.cpp_default := Card.cpp_default card; Card.categories := Card.categories card;
     Card.rotating_rules := rules |}.

Definition withUserRotating (p : Params.t) (ur : gmap string UserState.t) : Params.t :=
  {| Params.amountCents := Params.amountCents p; Params.categoryId := Params.categoryId p;
     Params.programOverrides := Params.programOverrides p; Params.nowISO := Params.nowISO p;
     Params.userRotating := ur;
     Params.userEnrolledOfferIds := Params.userEnrolledOfferIds p |}.

(** [s <= t] on optional window bounds: an absent or empty bound is no bound. *)
Definition boundHolds (bound : option string) (test : string -> bool) : bool :=
  match bound with
  | Some s => String.eqb s "" || test s
  | None => true
  end.

(** The calendar day (UTC) of an instant in the form [Date.toISOString]
    writes, "YYYY-MM-DDTHH:mm:ss.sssZ": its first ten characters. *)
Definition dayOf (nowISO : string) : string := String.substring 0 10 nowISO.

(** The window of a rule as the specification words it: the closed interval
    from the start of the day [start] to the end of the day [end], in UTC, a
    missing bound leaving that side open.  An instant is in it when its day
    is neither before [start] nor after [end]. *)
Definition specWindowContains (r : Rule.t) (nowISO : string) : bool :=
  boundHolds (Rule.start r) (fun s => String.leb s (dayOf nowISO))
  && boundHolds (Rule.end_ r) (fun e => String.leb (dayOf nowISO) e).

(** The three filters an offer passes before the enrollment gate. *)
Definition reachesGate (card : Card.t) (p : Params.t) (off : Offer.t) : bool :=
  offerActiveNow off (Params.nowISO p)
  && offerAppliesToCard off card
  && offerMatchesCategory off (Params.categoryId p).

(** The enrollment gate stops the offer: it requires an enrollment the
    caller's set does not hold. *)
Definition gateCloses (p : Params.t) (off : Offer.t) : bool :=
  Offer.enrollment_required off
  && negb (bool_decide (Offer.id off ∈ Params.userEnrolledOfferIds p)).

(** An offer skipped at the enrollment gate. *)
Definition skippedAtGate (card : Card.t) (p : Params.t) (off : Offer.t) : bool :=
  reachesGate card p off && gateCloses p off.

(** The four filters of the offer loop, in order: an offer that passes them
    reaches the value computation. *)
Definition passesFilters (card : Card.t) (p : Params.t) (off : Offer.t) : bool :=
  reachesGate card p off && negb (gateCloses p off).

(** The number of times a note occurs in a list of notes. *)
Definition countNote (note : string) (notes : list string) : nat :=
  count_occ String.string_dec notes note.

(** Whether a character occurs in a string. *)
Fixpoint hasChar (c : ascii) (s : string) : bool :=
  match s with
  | EmptyString => false
  | String a rest => Ascii.eqb a c || hasChar c rest
  end.

(** The offers valued by a percent: every [percent_back] offer, and a
    [statement_credit] offer whose minimum spend is met, that has no (non-zero)
    [fixed_amount] and has a non-zero [percent]. *)
Definition percentValued (p : Params.t) (off : Offer.t) : bool :=
  String.eqb (Offer.offer_type off) "percent_back"
  || (String.eqb (Offer.offer_type off) "statement_credit"
      && Qle_bool (numberOr (Offer.min_spend_cents off) 0) (Params.amountCents p)
      && negb (truthyNum (Offer.value off ≫= OfferValue.fixed_amount))
      && truthyNum (Offer.value off ≫= OfferValue.percent)).

(** A cap field counts when it holds a number other than zero. *)
Definition nonZero (x : option Q) : option Q :=
  match x with
  | Some c => if Qeq_bool c 0 then None else Some c
  | None => None
  end.

(** The cap of a percent offer, in cents: [max_back_cents] when it counts,
    else [max_amount_cents] when it counts, else none. *)
Definition capCentsOf (v : option OfferValue.t) : option Q :=
  match nonZero (v ≫= OfferValue.max_back_cents) with
  | Some c => Some c
  | None => nonZero (v ≫= OfferValue.max_amount_cents)
  end.

(** The percent of a percent offer. *)
Definition percentOf (v : option OfferValue.t) : Q :=
  numberOr (v ≫= OfferValue.percent) 0.

(** The parameters with another [amountCents]. *)
Definition withAmount (p : Params.t) (amountCents : Q) : Params.t :=
  {| Params.amountCents := amountCents; Params.categoryId := Params.categoryId p;
     Params.programOverrides := Params.programOverrides p; Params.nowISO := Params.nowISO p;
     Params.userRotating := Params.userRotating p;
     Params.userEnrolledOfferIds := Params.userEnrolledOfferIds p |}.

(** An optional number that is not negative. *)
Definition nonneg (x : option Q) : Prop :=
  match x with Some q => 0 <= q | None => True end.

(** Rates of a rule, multipliers and rates of a card, cents-per-point
    overrides of a call, and the percent, multiplier, caps and fixed amount of
    an offer, none of them negative. *)
Definition ruleNonneg (r : Rule.t) : Prop :=
  nonneg (Rule.rate r) /\ nonneg (Rule.after_rate r).

Definition cardNonneg (card : Card.t) : Prop :=
  nonneg (Card.base card)
  /\ nonneg (Card.cpp_default card)
  /\ map_Forall (fun _ m => 0 <= m) (default ∅ (Card.categories card))
  /\ Forall ruleNonneg (default [] (Card.rotating_rules card)).

Definition overridesNonneg (p : Params.t) : Prop :=
  map_Forall (fun _ cpp => 0 <= cpp) (Params.programOverrides p).

Definition offerNonneg (off : Offer.t) : Prop :=
  nonneg (Offer.value off ≫= OfferValue.fixed_amount)
  /\ nonneg (Offer.value off ≫= OfferValue.percent)
  /\ nonneg (Offer.value off ≫= OfferValue.points_multiplier)
  /\ nonneg (Offer.value off ≫= OfferValue.max_back_cents)
  /\ nonneg (Offer.value off ≫= OfferValue.max_amount_cents).

(** [a] may come before [b] in a ranking: more dollars, or as many dollars
    and at least as much bonus. *)
Definition rankedBefore (a b : Ranked.t) : Prop :=
  Ranked.dollars b < Ranked.dollars a
  \/ (Ranked.dollars a == Ranked.dollars b /\ Ranked.bonusValue b <= Ranked.bonusValue a).

(** [a] and [b] are equal on both ranking fields. *)
Definition tied (a b : Ranked.t) : bool :=
  Qeq_bool (Ranked.dollars a) (Ranked.dollars b)
  && Qeq_bool (Ranked.bonusValue a) (Ranked.bonusValue b).

(** The ids of the cards of a ranking, in order. *)
Definition cardIds (results : list Ranked.t) : list string :=
  map (fun r => Card.id (Ranked.card r)) results.

(** ** The rest of the engine file *)

(** [clampNum(n, lo, hi)] *)
Definition clampNum (n lo hi : Q) : Q := Qmax lo (Qmin hi n).

(** The parameters with another [programOverrides], the card with another
    [cpp_default]. *)
Definition withOverrides (p : Params.t) (overrides : gmap string Q) : Params.t :=
  {| Params.amountCents := Params.amountCents p; Params.categoryId := Params.categoryId p;
     Params.programOverrides := overrides; Params.nowISO := Params.nowISO p;
     Params.userRotating := Params.userRotating p;
     Params.userEnrolledOfferIds := Params.userEnrolledOfferIds p |}.

Definition withCppDefault (card : Card.t) (cpp : option Q) : Card.t :=
  {| Card.id := Card.id card; Card.program := Card.program card;
     Card.type := Card.type card; Card.base := Card.base card;
     Card.cpp_default := cpp; Card.categories := Card.categories card;
     Card.rotating_rules := Card.rotating_rules card |}.

(** The sum of a list of numbers. *)
Definition Qsum (l : list Q) : Q := foldr Qplus 0 l.

(** The accumulators with one more note in front of the others. *)
Definition withFirstNote (note : string) (a : Acc.t) : Acc.t :=
  {| Acc.baseValue := Acc.baseValue a; Acc.bonusValue := Acc.bonusValue a;
     Acc.notes := note :: Acc.notes a |}.

(** ** The caller: the parts of the application that feed the engine

    The application keeps its state in JSON; the definitions below model the
    pure computations it makes on that state before it calls [rankCards]. *)

(** The liveness test of the offer lists the application builds:
    [(!o.start_at || o.start_at <= now) && (!o.end_at || o.end_at >= now)]. *)
Definition offerIsLive (o : Offer.t) (now : string) : bool :=
  (negb (truthyStr (Offer.start_at o))
   || from_option (fun s => String.leb s now) false (Offer.start_at o))
  && (negb (truthyStr (Offer.end_at o))
      || from_option (fun e => String.leb now e) false (Offer.end_at o)).

(** [offerIsEligible(offer, ownedIds)] of the offers browser. *)
Definition offerIsEligible (offer : Offer.t) (ownedIds : list string) : bool :=
  let scope := match Offer.card_scope offer with JsArray ids => ids | _ => [] end in
  if (length scope =? 0)%nat then true
  else existsb (fun id => match id with
                          | JsString s => includes ownedIds s
                          | _ => false
                          end) scope.

(** A [Set] of strings: its elements in insertion order, each once. *)
Definition setAdd (s : list string) (x : string) : list string :=
  if includes s x then s else s ++ [x].

Definition setDelete (s : list string) (x : string) : list string :=
  List.filter (fun y => negb (String.eqb y x)) s.

(** [new Set(array)] *)
Definition setFromArray (l : list string) : list string := fold_left setAdd l [].

(** The state update of [toggleEnrollment(offerId, on)]: from the stored
    array of enrolled ids to the next one. *)
Definition toggleEnrollment (prev : list string) (offerId : string) (on : bool)
    : list string :=
  let s := setFromArray prev in
  if on then setAdd s offerId else setDelete s offerId.

(** [new Set(enrolledOfferIds)], as the engine uses it (by membership). *)
Definition enrolledSet (enrolledOfferIds : list string) : gset string :=
  list_to_set enrolledOfferIds.

(** The parameters with another [userEnrolledOfferIds]. *)
Definition withEnrolled (p : Params.t) (ids : gset string) : Params.t :=
  {| Params.amountCents := Params.amountCents p; Params.categoryId := Params.categoryId p;
     Params.programOverrides := Params.programOverrides p; Params.nowISO := Params.nowISO p;
     Params.userRotating := Params.userRotating p;
     Params.userEnrolledOfferIds := ids |}.

(** The names of the members a plain object inherits from
    [Object.prototype]: reading one of these keys from an object that has no
    such key of its own gives the inherited member, a function or, for
    "__proto__", the prototype itself, and not [undefined]. *)
Definition OBJECT_PROTOTYPE_KEYS : list string :=
  [ "constructor"; "__defineGetter__"; "__defineSetter__"; "hasOwnProperty";
    "__lookupGetter__"; "__lookupSetter__"; "isPrototypeOf"; "propertyIsEnumerable";
    "toString"; "valueOf"; "__proto__"; "toLocaleString" ]%string.

Definition inheritedKey (k : string) : bool := includes OBJECT_PROTOTYPE_KEYS k.

Definition isDigit (c : ascii) : bool :=
  (48 <=? nat_of_ascii c)%nat && (nat_of_ascii c <=? 57)%nat.

Fixpoint allDigits (s : string) : bool :=
  match s with
  | EmptyString => true
  | String c rest => isDigit c && allDigits rest
  end.

(** A key written with digits only.  The array indices are among these, and
    [Object.entries] lists array indices first, in numeric order, wherever
    they were inserted. *)
Definition digitKey (k : string) : bool := negb (String.eqb k "") && allDigits k.

(** A key a table of counts handles as a dictionary would: read as
    [undefined] until it is written, and listed in insertion order. *)
Definition plainKey (k : string) : bool := negb (inheritedKey k) && negb (digitKey k).

(** An object used as a table of counts, for plain keys: the keys in
    insertion order, [counts[c] = (counts[c] || 0) + 1]. *)
Fixpoint bump (counts : list (string * Q)) (c : string) : list (string * Q) :=
  match counts with
  | [] => [(c, 0 + 1)]
  | (k, v) :: rest =>
      if String.eqb k c then (k, (if truthy v then v else 0) + 1) :: rest
      else (k, v) :: bump rest c
  end.

(** The categories of an offer, [Array.isArray(o.categories) ? o.categories : []]. *)
Definition categoriesOf (o : Offer.t) : list string := default [] (Offer.categories o).

(** The two nested loops of [pickCategoryFromOffers]. *)
Definition countCategories (offers : list Offer.t) : list (string * Q) :=
  fold_left (fun counts o => fold_left bump (categoriesOf o) counts) offers [].

Definition MERCHANT_CATEGORY_FALLBACKS : gmap string string :=
  list_to_map
    [ ("levis", "online"); ("Anthropologie", "online"); ("mizzen_main", "online");
      ("glossier", "online");
      ("logitech", "online"); ("dyson", "online"); ("LG", "online");
      ("crocs", "online"); ("on_running", "online");
      ("fanatics", "online");
      ("shake_shack", "dining"); ("CrackerBarrel", "dining"); ("Cinnabon", "dining");
      ("JerseyMikes", "dining");
      ("nordstrom", "department_store");
      ("SouthwestAirlines", "travel");
      ("pimsleur", "online") ]%string.

(** All the categories of a list of offers, with repetitions. *)
Definition allCategories (offers : list Offer.t) : list string :=
  concat (map categoriesOf offers).

(** What [pickCategoryFromOffers] returns: a category id, [null], or, from
    the fallback table, the member of [Object.prototype] of the given name. *)
Inductive Picked :=
| PickedCategory (c : string)
| PickedNull
| PickedInherited (name : string).

(** [MERCHANT_CATEGORY_FALLBACKS[merchantId] || null]: the table's own entry,
    else the inherited member of that name, else [null]. *)
Definition fallbackCategory (merchantId : string) : Picked :=
  match MERCHANT_CATEGORY_FALLBACKS !! merchantId with
  | Some c => if truthyStr (Some c) then PickedCategory c else PickedNull
  | None => if inheritedKey merchantId then PickedInherited merchantId else PickedNull
  end.

(** [pickCategoryFromOffers(offersForMerchant, merchantId)], for offers whose
    categories are plain keys.  With a category named like a member of
    [Object.prototype] the counts of the code are no longer numbers
    ([counts[c] || 0] reads the inherited member) and the comparator of the
    sort gives [NaN]; with a category that is an array index
    [Object.entries] does not list the keys in insertion order.  The result
    is [None] for these calls: they are outside this model. *)
Definition pickCategoryFromOffers (offersForMerchant : list Offer.t) (merchantId : string)
    : option Picked :=
  if forallb plainKey (allCategories offersForMerchant) then
    let counts := countCategories offersForMerchant in
    match sortBy (fun a b => snd b - snd a) counts with
    | top :: _ => Some (PickedCategory (fst top))
    | [] => Some (fallbackCategory merchantId)
    end
  else None.

(** The number of times the offers name a category. *)
Definition occurrences (offers : list Offer.t) (c : string) : nat :=
  count_occ String.string_dec (allCategories offers) c.

(** The count stored for a key, 0 when the key is missing. *)
Definition countOf (counts : list (string * Q)) (c : string) : Q :=
  match find (fun e => String.eqb (fst e) c) counts with
  | Some e => snd e
  | None => 0
  end.



(** A choice of bonus category: the entries of [BOA_CCP_CHOICES] and
    [CITI_CUSTOM_CASH_CHOICES]. *)
Module Choice.
Record t := {
  id : string;
  label : string;
  inject : gmap string Q
}.
End Choice.

Definition boaOnline : Choice.t :=
  {| Choice.id := "online"; Choice.label := "Online shopping";
     Choice.inject := {[ "online"%string := 3 ]} |}.

Definition BOA_CCP_CHOICES : list Choice.t :=
  [ boaOnline;
    {| Choice.id := "dining"; Choice.label := "Dining";
       Choice.inject := {[ "dining"%string := 3 ]} |};
    {| Choice.id := "drugstore"; Choice.label := "Drug stores";
       Choice.inject := {[ "drugstore"%string := 3 ]} |};
    {| Choice.id := "gas_ev"; Choice.label := "Gas & EV charging";
       Choice.inject := {[ "gas"%string := 3; "ev_charging"%string := 3 ]} |};
    {| Choice.id := "home_improve"; Choice.label := "Home improvement & furnishing";
       Choice.inject := {[ "home_improve"%string := 3 ]} |};
    {| Choice.id := "travel"; Choice.label := "Travel";
       Choice.inject := {[ "travel"%string := 3 ]} |} ].

Definition citiGrocery : Choice.t :=
  {| Choice.id := "grocery"; Choice.label := "Grocery stores";
     Choice.inject := {[ "grocery"%string := 5 ]} |}.

Definition CITI_CUSTOM_CASH_CHOICES : list Choice.t :=
  [ citiGrocery;
    {| Choice.id := "gas"; Choice.label := "Gas stations";
       Choice.inject := {[ "gas"%string := 5 ]} |};
    {| Choice.id := "dining"; Choice.label := "Restaurants";
       Choice.inject := {[ "dining"%string := 5 ]} |};
    {| Choice.id := "travel"; Choice.label := "Travel";
       Choice.inject := {[ "travel"%string := 5 ]} |};
    {| Choice.id := "transit"; Choice.label := "Transit";
       Choice.inject := {[ "transit"%string := 5 ]} |};
    {| Choice.id := "drugstore"; Choice.label := "Drugstores";
       Choice.inject := {[ "drugstore"%string := 5 ]} |};
    {| Choice.id := "home_improve"; Choice.label := "Home improvement stores";
       Choice.inject := {[ "home_improve"%string := 5 ]} |};
    {| Choice.id := "entertainment"; Choice.label := "Entertainment";
       Choice.inject := {[ "entertainment"%string := 5 ]} |} ].

(** [CHOICES.find((x) => x.id === choice) || CHOICES[0]], for a table whose
    first entry is [first]. *)
Definition pickChoice (choices : list Choice.t) (first : Choice.t) (choice : string)
    : Choice.t :=
  default first (find (fun x => String.eqb (Choice.id x) choice) choices).

(** The card with another [categories] field. *)
Definition withCategories (card : Card.t) (cats : option (gmap string Q)) : Card.t :=
  {| Card.id := Card.id card; Card.program := Card.program card;
     Card.type := Card.type card; Card.base := Card.base card;
     Card.cpp_default := Card.cpp_default card; Card.categories := cats;
     Card.rotating_rules := Card.rotating_rules card |}.

(** The wallet handed to [rankCards]: the owned cards of the catalog, the
    Bank of America and the Citi cards with the categories of the stored
    choices.  (The display notes the application appends to these two cards
    are not part of [Card.t].) *)
Definition ownedCards (cardsCatalog : list Card.t) (ownedIds : list string)
    (boaCcpChoice citiCustomChoice : string) : list Card.t :=
  let cards := List.filter (fun c => includes ownedIds (Card.id c)) cardsCatalog in
  let cards :=
    if includes ownedIds "boa_ccp" then
      let choice := pickChoice BOA_CCP_CHOICES boaOnline boaCcpChoice in
      map (fun c =>
             if negb (String.eqb (Card.id c) "boa_ccp") then c
             else
               let orig := default ∅ (Card.categories c) in
               let noChosen := delete "chosen"%string orig in
               withCategories c (Some (Choice.inject choice ∪ noChosen)))
          cards
    else cards in
  let cards :=
    if includes ownedIds "citi_custom_cash" then
      let choice := pickChoice CITI_CUSTOM_CASH_CHOICES citiGrocery citiCustomChoice in
      map (fun c =>
             if negb (String.eqb (Card.id c) "citi_custom_cash") then c
             else withCategories c (Some (Choice.inject choice)))
          cards
    else cards in
  cards.

(** * Properties *)

(** ** Cap split calculator *)

(** C2. For every amount and remaining cap, [applyCapSplitPercent] boosts
    min(amount, max(0, cap)) cents and leaves the remainder at the base
    percent: the two portions add up to the amount, the boosted portion is
    at most the clamped cap, and each value is its portion, in dollars, at
    its percent. *)
Theorem applyCapSplitPercent_conservation
    (amountCents boostPercent basePercent remainingCapCents : Q) :
  let s := applyCapSplitPercent amountCents boostPercent basePercent remainingCapCents in
  CapSplit.boostCents s = Qmin amountCents (Qmax 0 remainingCapCents)
  /\ CapSplit.baseCents s = amountCents - CapSplit.boostCents s
  /\ CapSplit.boostCents s + CapSplit.baseCents s == amountCents
  /\ CapSplit.boostCents s <= Qmax 0 remainingCapCents
  /\ 0 <= Qmax 0 remainingCapCents
  /\ CapSplit.boostVal s == CapSplit.boostCents s * boostPercent / 10000
  /\ CapSplit.baseVal s == CapSplit.baseCents s * basePercent / 10000.
Proof.
  cbn -[Qmin Qmax Qdiv Qmult Qplus Qminus].
  repeat split.
  - ring.
  - apply Q.le_min_r.
  - apply Q.le_max_l.
  - field.
  - field.
Qed.

(** ** Operators *)

Lemma Qgtb_true (a b : Q) : Qgtb a b = true <-> b < a.
Proof.
  unfold Qgtb. rewrite negb_true_iff, <- not_true_iff_false, Qle_bool_iff.
  split; [apply Qnot_le_lt | apply Qlt_not_le].
Qed.

Lemma Qgtb_false (a b : Q) : Qgtb a b = false <-> a <= b.
Proof. unfold Qgtb. rewrite negb_false_iff. apply Qle_bool_iff. Qed.

Lemma string_ltb_leb (s1 s2 : string) : String.ltb s1 s2 = negb (String.leb s2 s1).
Proof.
  unfold String.ltb, String.leb. rewrite (String.compare_antisym s1 s2).
  destruct (String.compare s2 s1); reflexivity.
Qed.

(** ** Rotating window resolver *)

Section Rotating.
Variables (cardId categoryId nowISO : string) (userRotating : gmap string UserState.t).

Lemma scanRules_skip (before rest : list Rule.t) :
  Forall (fun r => ruleMatches r categoryId nowISO = false) before ->
  scanRules (before ++ rest) cardId categoryId nowISO userRotating
  = scanRules rest cardId categoryId nowISO userRotating.
Proof.
  induction 1 as [|r before Hr _ IH]; [reflexivity|].
  cbn [app scanRules]. unfold ruleMatches in Hr.
  destruct (ruleWindowContains r nowISO); cbn in *; [|exact IH].
  rewrite Hr. exact IH.
Qed.

Lemma scanRules_stop (r : Rule.t) (rest : list Rule.t) :
  ruleMatches r categoryId nowISO = true ->
  scanRules (r :: rest) cardId categoryId nowISO userRotating
  = Some (windowOf r (default UserState.empty (userRotating !! cardId))).
Proof.
  unfold ruleMatches. intros [Hw Hc]%andb_true_iff.
  cbn [scanRules]. rewrite Hw, Hc. reflexivity.
Qed.

Lemma scanRules_none (rules : list Rule.t) :
  Forall (fun r => ruleMatches r categoryId nowISO = false) rules ->
  scanRules rules cardId categoryId nowISO userRotating = None.
Proof.
  intros Hall. rewrite <- (app_nil_r rules). rewrite scanRules_skip by exact Hall.
  reflexivity.
Qed.

End Rotating.

(** The scan stops at the first rule, in declared order, that passes its two
    tests (the string comparisons of [isWithin] and the membership in
    [category_ids]), whatever follows that rule and whether or not it is
    active.  When the rule requires activation, [active] is the caller's
    [activated] flag for the card and the reason of an inactive window is
    "Activation required"; when it does not, [active] is true. *)
Lemma activeRotatingWindow_first_match
    (card : Card.t) (categoryId nowISO : string) (userRotating : gmap string UserState.t)
    (before : list Rule.t) (r : Rule.t) (after : list Rule.t) :
  Card.rotating_rules card = Some (before ++ r :: after) ->
  Forall (fun r' => ruleMatches r' categoryId nowISO = false) before ->
  ruleWindowContains r nowISO = true ->
  ruleHasCategory r categoryId = true ->
  let u := default UserState.empty (userRotating !! Card.id card) in
  exists w : Window.t,
    activeRotatingWindow card categoryId nowISO userRotating = Some w
    /\ w = windowOf r u
    /\ Window.active w
       = (if Rule.activation_required r then UserState.activated u else true)
    /\ Window.reason w
       = (if Window.active w then None else Some "Activation required"%string).
Proof.
  intros Hrules Hbefore Hw Hc u.
  exists (windowOf r u). split; [|repeat split].
  unfold activeRotatingWindow. rewrite Hrules.
  destruct (length (before ++ r :: after) =? 0)%nat eqn:Hlen.
  - apply Nat.eqb_eq in Hlen. rewrite length_app in Hlen. cbn in Hlen. lia.
  - rewrite scanRules_skip by exact Hbefore.
    apply scanRules_stop. unfold ruleMatches. rewrite Hw, Hc. reflexivity.
Qed.

Lemma activeRotatingWindow_first_match_witness :
  exists w : Window.t,
    activeRotatingWindow twoRuleCard "grocery" "2025-03-15T12:00:00.000Z" ∅ = Some w
    /\ w = windowOf groceryRule UserState.empty
    /\ Window.active w = false
    /\ Window.reason w = Some "Activation required"%string.
Proof.
  destruct (activeRotatingWindow_first_match twoRuleCard "grocery"
              "2025-03-15T12:00:00.000Z" ∅ [expiredRule] groceryRule [openRule])
    as (w & Hw & -> & Hactive & Hreason).
  - reflexivity.
  - repeat constructor.
  - reflexivity.
  - reflexivity.
  - eexists. split; [exact Hw|]. repeat split.
Defined.

(** C4. The resolver does not return the first rule whose window contains
    the instant when the instant is the start of the rule's first day.  The
    only rule of [quarterCard] starts on 2025-01-01, names "grocery" and needs
    no activation; the instant [Date.toISOString] writes for midnight UTC of
    that day, "2025-01-01T00:00:00.000Z", is the first of the rule's window;
    yet the resolver returns [null].  The start bound [toISOStartOfDay]
    builds, "2025-01-01T00:00:00Z", has no milliseconds, and the instant
    compares below it as a string ("." comes before "Z").  From the next
    second to the last instant of 2025-03-31 the rule is returned, and
    neither after that day nor for another category. *)
Theorem activeRotatingWindow_misses_start_of_first_day :
  let nowISO := "2025-01-01T00:00:00.000Z"%string in
  Card.rotating_rules quarterCard = Some [openRule]
  /\ Rule.start openRule = Some "2025-01-01"%string
  /\ dayOf nowISO = "2025-01-01"%string
  /\ specWindowContains openRule nowISO = true
  /\ ruleHasCategory openRule "grocery" = true
  /\ String.ltb nowISO (toISOStartOfDay "2025-01-01") = true
  /\ activeRotatingWindow quarterCard "grocery" nowISO ∅ = None
  /\ (exists w, activeRotatingWindow quarterCard "grocery" "2025-01-01T00:00:01.000Z" ∅
                = Some w /\ Window.active w = true)
  /\ (exists w, activeRotatingWindow quarterCard "grocery" "2025-03-31T23:59:59.999Z" ∅
                = Some w /\ Window.active w = true)
  /\ activeRotatingWindow quarterCard "grocery" "2025-04-01T00:00:00.000Z" ∅ = None
  /\ activeRotatingWindow quarterCard "dining" "2025-01-01T00:00:01.000Z" ∅ = None.
Proof.
  repeat split; try reflexivity.
  - eexists. split; reflexivity.
  - eexists. split; reflexivity.
Qed.

(** A card with no matching rule, no rule at all, or no array of rules has no window. *)
Lemma activeRotatingWindow_none
    (card : Card.t) (categoryId nowISO : string) (userRotating : gmap string UserState.t) :
  match Card.rotating_rules card with
  | Some rules => Forall (fun r => ruleMatches r categoryId nowISO = false) rules
  | None => True
  end ->
  activeRotatingWindow card categoryId nowISO userRotating = None.
Proof.
  unfold activeRotatingWindow. destruct (Card.rotating_rules card) as [rules|]; [|reflexivity].
  intros Hall. destruct (length rules =? 0)%nat; [reflexivity|].
  apply scanRules_none, Hall.
Qed.

(** ** Offer filters *)

Lemma orNull_check (bound : option string) (test : string -> bool) :
  truthyStr (orNull bound) && from_option test false (orNull bound)
  = negb (boundHolds bound (fun s => negb (test s))).
Proof.
  unfold orNull, boundHolds. destruct bound as [s|]; [|reflexivity].
  cbn. destruct (String.eqb s "") eqn:Es; cbn; [reflexivity|].
  rewrite Es. cbn. rewrite negb_involutive. reflexivity.
Qed.

(** C5, as the code has it. Both bounds of an offer's window are inclusive:
    the offer is active exactly when [start_at <= now] and [now <= end_at] in
    the order of strings, and a bound that is absent (or empty) does not
    restrict the window on its side. *)
Theorem offerActiveNow_inclusive_bounds (off : Offer.t) (nowISO : string) :
  offerActiveNow off nowISO
  = boundHolds (Offer.start_at off) (fun s => String.leb s nowISO)
    && boundHolds (Offer.end_at off) (fun e => String.leb nowISO e).
Proof.
  unfold offerActiveNow, isWithin. rewrite !orNull_check.
  assert (forall b f g, (forall s, f s = g s) -> boundHolds b f = boundHolds b g) as Hext.
  { intros [s|] f g Hfg; [|reflexivity]. cbn. rewrite Hfg. reflexivity. }
  rewrite (Hext (Offer.start_at off) _ (fun s => String.leb s nowISO)).
  2:{ intros s. rewrite string_ltb_leb. apply negb_involutive. }
  rewrite (Hext (Offer.end_at off) _ (fun e => String.leb nowISO e)).
  2:{ intros e. rewrite string_ltb_leb. apply negb_involutive. }
  destruct (boundHolds (Offer.start_at off) _), (boundHolds (Offer.end_at off) _);
    reflexivity.
Qed.

(** C5, as stated, fails: an offer whose [end_at] is the current instant
    still passes the window filter. *)
Lemma offerActiveNow_end_not_exclusive :
  Offer.end_at endsNowOffer = Some "2025-03-15T12:00:00.000Z"%string
  /\ offerActiveNow endsNowOffer "2025-03-15T12:00:00.000Z" = true.
Proof. split; reflexivity. Qed.

Lemma offerAppliesToCard_other_scope (off : Offer.t) (card : Card.t) :
  Offer.card_scope off <> JsString "all" ->
  isArray (Offer.card_scope off) = false ->
  offerAppliesToCard off card = false.
Proof.
  unfold offerAppliesToCard, strictEqString, isArray.
  destruct (Offer.card_scope off) as [| | | |s| |]; intros Hall Harr;
    try reflexivity; try discriminate.
  destruct (String.eqb_spec s "all") as [->|]; [|reflexivity].
  contradiction.
Qed.

(** ** Value aggregator *)

Section ValuationProps.
Context {fmt : NumberFormat}.

(** An offer the loop body leaves the accumulators alone for can be removed
    from the list. *)
Lemma valueFor_skip (card : Card.t) (p : Params.t) (off : Offer.t)
    (before after : list Offer.t) :
  (forall cpp acc, offerStep card p cpp acc off = acc) ->
  valueFor card p (before ++ off :: after) = valueFor card p (before ++ after).
Proof.
  intros Hskip. unfold valueFor.
  rewrite !fold_left_app. cbn [fold_left]. rewrite Hskip. reflexivity.
Qed.

(** C10. An offer whose [card_scope] is neither the string "all" nor an
    array fails the card-scope filter for every card; the loop skips it
    before anything is added or noted, so the valuation is the one of the
    offer list without it. *)
Theorem offer_with_other_scope_ignored
    (off : Offer.t) (card : Card.t) (p : Params.t) (before after : list Offer.t) :
  Offer.card_scope off <> JsString "all" ->
  isArray (Offer.card_scope off) = false ->
  offerAppliesToCard off card = false
  /\ valueFor card p (before ++ off :: after) = valueFor card p (before ++ after).
Proof.
  intros Hall Harr.
  pose proof (offerAppliesToCard_other_scope off card Hall Harr) as Hscope.
  split; [exact Hscope|].
  apply valueFor_skip. intros cpp acc. unfold offerStep. rewrite Hscope.
  destruct (offerActiveNow off (Params.nowISO p)); reflexivity.
Qed.

Lemma offerStep_baseValue (card : Card.t) (p : Params.t) (cpp : Q) (acc : Acc.t)
    (off : Offer.t) :
  Acc.baseValue (offerStep card p cpp acc off) = Acc.baseValue acc.
Proof.
  unfold offerStep, percentBack.
  repeat match goal with
         | |- context [if ?b then _ else _] => destruct b
         | |- context [match ?o with Some _ => _ | None => _ end] => destruct o
         end; reflexivity.
Qed.

Lemma fold_offerStep_baseValue (card : Card.t) (p : Params.t) (cpp : Q)
    (offers : list Offer.t) (acc : Acc.t) :
  Acc.baseValue (fold_left (offerStep card p cpp) offers acc) = Acc.baseValue acc.
Proof.
  revert acc. induction offers as [|off offers IH]; intros acc; [reflexivity|].
  cbn [fold_left]. rewrite IH. apply offerStep_baseValue.
Qed.

Lemma cardType_not_cashback (card : Card.t) :
  Card.type card = Some "points"%string \/ Card.type card = Some "miles"%string ->
  String.eqb (cardType card) "cashback" = false.
Proof. unfold cardType. intros [-> | ->]; reflexivity. Qed.

Lemma baseEarnings_not_cashback (card : Card.t) (p : Params.t) (cpp : Q) :
  String.eqb (cardType card) "cashback" = false ->
  baseEarnings card p cpp
  = addBase (Params.amountCents p / 100 * staticMultiplier card (Params.categoryId p)
             * (cpp / 100))
      freshAcc.
Proof. intros Hnc. unfold baseEarnings. rewrite Hnc. reflexivity. Qed.

(** C7. For a card of type points or miles the base value is
    amount x multiplier x cpp/100, and neither the card's [rotating_rules] nor
    the caller's [userRotating] is consulted: replacing both leaves the whole
    result unchanged. *)
Theorem valueFor_points_ignores_rotating
    (card : Card.t) (p : Params.t) (offers : list Offer.t) :
  Card.type card = Some "points"%string \/ Card.type card = Some "miles"%string ->
  Valuation.baseValue (valueFor card p offers)
    == (Params.amountCents p / 100) * staticMultiplier card (Params.categoryId p)
       * (resolveCpp card (Params.programOverrides p) / 100)
  /\ forall (rules : option (list Rule.t)) (ur : gmap string UserState.t),
       valueFor (withRotatingRules card rules) (withUserRotating p ur) offers
       = valueFor card p offers.
Proof.
  intros Htype. pose proof (cardType_not_cashback card Htype) as Hnc. split.
  - unfold valueFor. cbn [Valuation.baseValue]. rewrite fold_offerStep_baseValue.
    rewrite baseEarnings_not_cashback by exact Hnc.
    cbn [addBase freshAcc Acc.baseValue]. ring.
  - intros rules ur. unfold valueFor.
    rewrite (baseEarnings_not_cashback card p) by exact Hnc.
    rewrite (baseEarnings_not_cashback (withRotatingRules card rules)) by exact Hnc.
    reflexivity.
Qed.

(** *** Percent offers and their cap *)

Lemma orElse_capCentsOf (v : option OfferValue.t) :
  match orElse (v ≫= OfferValue.max_back_cents) (v ≫= OfferValue.max_amount_cents) with
  | Some c => if truthy c then Some c else None
  | None => None
  end = capCentsOf v.
Proof.
  unfold orElse, capCentsOf, nonZero, truthyNum, truthy.
  destruct (v ≫= OfferValue.max_back_cents) as [c|];
    destruct (v ≫= OfferValue.max_amount_cents) as [c'|]; cbn;
    repeat match goal with
           | |- context [Qeq_bool ?a ?b] => destruct (Qeq_bool a b) eqn:?; cbn
           end; congruence.
Qed.

(** What the percent block does to the accumulators. *)
Lemma percentBack_spec (amount : Q) (v : option OfferValue.t) (acc : Acc.t) :
  percentBack amount v acc
  = match capCentsOf v with
    | Some c =>
        addBonus (Qmin (amount * (percentOf v / 100)) (c / 100))
          (push (numberToString (percentOf v) +:+ "% back (capped at "
                   +:+ money (c / 100) +:+ ")") acc)
    | None =>
        addBonus (amount * (percentOf v / 100))
          (push (numberToString (percentOf v) +:+ "% back") acc)
    end.
Proof.
  unfold percentBack. rewrite <- orElse_capCentsOf. fold (percentOf v).
  destruct (orElse _ _) as [c|]; [|reflexivity].
  destruct (truthy c); reflexivity.
Qed.

(** A percent-valued offer that passes the filters runs the percent block. *)
Lemma offerStep_percentValued (card : Card.t) (p : Params.t) (cpp : Q) (acc : Acc.t)
    (off : Offer.t) :
  passesFilters card p off = true ->
  percentValued p off = true ->
  offerStep card p cpp acc off
  = percentBack (Params.amountCents p / 100) (Offer.value off) acc.
Proof.
  unfold passesFilters, reachesGate, gateCloses, percentValued, offerStep.
  intros [[[-> ->]%andb_true_iff ->]%andb_true_iff ->%negb_true_iff]%andb_true_iff.
  cbn [negb].
  destruct (String.eqb_spec (Offer.offer_type off) "statement_credit") as [E|_].
  - rewrite E. cbn [String.eqb Ascii.eqb Bool.eqb orb andb].
    intros [[-> Hfixed%negb_true_iff]%andb_true_iff ->]%andb_true_iff.
    destruct (Offer.value off ≫= OfferValue.fixed_amount) as [f|]; [|reflexivity].
    cbn in Hfixed. rewrite Hfixed. reflexivity.
  - cbn [andb]. rewrite orb_false_r. intros ->. reflexivity.
Qed.

(** C6, as the code has it. For a percent-valued [statement_credit] or
    [percent_back] offer that passes the filters, the cap is [max_back_cents]
    when that is a number other than zero, else [max_amount_cents] when that
    is a number other than zero (first non-zero wins, and a zero cap is no
    cap): the offer adds min(amount x percent/100, cap/100) dollars when it has
    such a cap and amount x percent/100 dollars when it has none. *)
Theorem percent_offer_cap_first_nonzero
    (card : Card.t) (p : Params.t) (cpp : Q) (acc : Acc.t) (off : Offer.t) :
  passesFilters card p off = true ->
  percentValued p off = true ->
  let raw := Params.amountCents p / 100 * (percentOf (Offer.value off) / 100) in
  Acc.bonusValue (offerStep card p cpp acc off)
  = Acc.bonusValue acc
    + match capCentsOf (Offer.value off) with
      | Some c => Qmin raw (c / 100)
      | None => raw
      end.
Proof.
  intros Hpass Hpct raw. rewrite offerStep_percentValued by assumption.
  rewrite percentBack_spec. destruct (capCentsOf (Offer.value off)); reflexivity.
Qed.

(** C9, as the code has it. For a percent-valued [statement_credit] or
    [percent_back] offer that passes the filters, exactly one note is added:
    "{p}% back (capped at $X.XX)" when the offer has a cap (a non-zero
    [max_back_cents], else a non-zero [max_amount_cents]), whether or not the
    cap lowers the value, and "{p}% back" when it has none. *)
Theorem percent_offer_note_tells_cap_present
    (card : Card.t) (p : Params.t) (cpp : Q) (acc : Acc.t) (off : Offer.t) :
  passesFilters card p off = true ->
  percentValued p off = true ->
  let pct := numberToString (percentOf (Offer.value off)) in
  Acc.notes (offerStep card p cpp acc off)
  = Acc.notes acc
    ++ [match capCentsOf (Offer.value off) with
        | Some c => pct +:+ "% back (capped at " +:+ money (c / 100) +:+ ")"
        | None => pct +:+ "% back"
        end].
Proof.
  intros Hpass Hpct pct. rewrite offerStep_percentValued by assumption.
  rewrite percentBack_spec. destruct (capCentsOf (Offer.value off)); reflexivity.
Qed.

(** *** The enrollment gate *)

Lemma hasChar_app (c : ascii) (s t : string) :
  hasChar c (s +:+ t) = hasChar c s || hasChar c t.
Proof.
  induction s as [|a s IH]; [reflexivity|].
  simpl. rewrite IH. apply orb_assoc.
Qed.

(** A note with a percent sign in it is not the enrollment note. *)
Lemma percent_note_not_enroll (s t : string) :
  hasChar "%"%char t = true -> s +:+ t <> ENROLL_NOTE.
Proof.
  intros Ht E.
  assert (hasChar "%"%char (s +:+ t) = true) as Hc
    by (rewrite hasChar_app, Ht; apply orb_true_r).
  rewrite E in Hc. discriminate.
Qed.

Lemma countNote_push (note : string) (acc : Acc.t) :
  note <> ENROLL_NOTE ->
  countNote ENROLL_NOTE (Acc.notes (push note acc)) = countNote ENROLL_NOTE (Acc.notes acc).
Proof.
  intros Hne. unfold countNote, push. cbn [Acc.notes].
  rewrite count_occ_app. cbn.
  destruct (String.string_dec note ENROLL_NOTE); [contradiction|lia].
Qed.

Lemma countNote_push_enroll (acc : Acc.t) :
  countNote ENROLL_NOTE (Acc.notes (push ENROLL_NOTE acc))
  = S (countNote ENROLL_NOTE (Acc.notes acc)).
Proof.
  unfold countNote, push. cbn [Acc.notes].
  rewrite count_occ_app. cbn.
  destruct (String.string_dec ENROLL_NOTE ENROLL_NOTE); [lia|contradiction].
Qed.

Lemma countNote_percentBack (amount : Q) (v : option OfferValue.t) (acc : Acc.t) :
  countNote ENROLL_NOTE (Acc.notes (percentBack amount v acc))
  = countNote ENROLL_NOTE (Acc.notes acc).
Proof.
  rewrite percentBack_spec.
  destruct (capCentsOf v); cbn [addBonus Acc.notes];
    apply countNote_push, percent_note_not_enroll; reflexivity.
Qed.

(** The base step never writes the enrollment note. *)
Lemma countNote_baseEarnings (card : Card.t) (p : Params.t) (cpp : Q) :
  countNote ENROLL_NOTE (Acc.notes (baseEarnings card p cpp)) = 0%nat.
Proof.
  unfold baseEarnings.
  destruct (String.eqb (cardType card) "cashback"); [|reflexivity].
  destruct (activeRotatingWindow _ _ _ _) as [w|]; [|reflexivity].
  destruct (Window.active w); rewrite countNote_push; try reflexivity; discriminate.
Qed.

(** An offer that is not skipped at the gate leaves the number of
    enrollment notes as it is. *)
Lemma countNote_offerStep_other (card : Card.t) (p : Params.t) (cpp : Q) (acc : Acc.t)
    (off : Offer.t) :
  skippedAtGate card p off = false ->
  countNote ENROLL_NOTE (Acc.notes (offerStep card p cpp acc off))
  = countNote ENROLL_NOTE (Acc.notes acc).
Proof.
  unfold skippedAtGate, reachesGate, gateCloses, offerStep.
  destruct (offerActiveNow off (Params.nowISO p)); [|reflexivity].
  destruct (offerAppliesToCard off card); [|reflexivity].
  destruct (offerMatchesCategory off (Params.categoryId p)); [|reflexivity].
  cbn [andb negb]. intros ->.
  destruct (String.eqb (Offer.offer_type off) "statement_credit").
  { destruct (Qle_bool _ _); [|reflexivity].
    destruct (Offer.value off ≫= OfferValue.fixed_amount) as [f|].
    - destruct (truthy f).
      + rewrite countNote_push; [reflexivity|discriminate].
      + destruct (truthyNum _); [apply countNote_percentBack|reflexivity].
    - destruct (truthyNum _); [apply countNote_percentBack|reflexivity]. }
  destruct (String.eqb (Offer.offer_type off) "percent_back");
    [apply countNote_percentBack|].
  destruct (String.eqb (Offer.offer_type off) "points_multiplier"); [|reflexivity].
  rewrite countNote_push; [|discriminate].
  destruct (String.eqb (cardType card) "cashback"); reflexivity.
Qed.

(** An offer skipped at the gate writes the note unless it is there already. *)
Lemma offerStep_skipped (card : Card.t) (p : Params.t) (cpp : Q) (acc : Acc.t)
    (off : Offer.t) :
  skippedAtGate card p off = true ->
  offerStep card p cpp acc off
  = if bool_decide (ENROLL_NOTE ∈ Acc.notes acc) then acc else push ENROLL_NOTE acc.
Proof.
  unfold skippedAtGate, reachesGate, gateCloses, offerStep.
  intros [[[-> ->]%andb_true_iff ->]%andb_true_iff ->]%andb_true_iff. reflexivity.
Qed.

Lemma countNote_offerStep_skipped (card : Card.t) (p : Params.t) (cpp : Q) (acc : Acc.t)
    (off : Offer.t) :
  skippedAtGate card p off = true ->
  (countNote ENROLL_NOTE (Acc.notes acc) <= 1)%nat ->
  countNote ENROLL_NOTE (Acc.notes (offerStep card p cpp acc off)) = 1%nat.
Proof.
  intros Hskip Hle. rewrite offerStep_skipped by exact Hskip.
  case_bool_decide as Hin.
  - apply list_elem_of_In, (count_occ_In String.string_dec) in Hin.
    unfold countNote in *. lia.
  - rewrite countNote_push_enroll.
    rewrite list_elem_of_In, (count_occ_not_In String.string_dec) in Hin.
    unfold countNote. lia.
Qed.

Lemma countNote_fold (card : Card.t) (p : Params.t) (cpp : Q) (offers : list Offer.t)
    (acc : Acc.t) :
  (countNote ENROLL_NOTE (Acc.notes acc) <= 1)%nat ->
  countNote ENROLL_NOTE (Acc.notes (fold_left (offerStep card p cpp) offers acc))
  = if existsb (skippedAtGate card p) offers then 1%nat
    else countNote ENROLL_NOTE (Acc.notes acc).
Proof.
  revert acc. induction offers as [|off offers IH]; intros acc Hle; [reflexivity|].
  cbn [fold_left existsb].
  destruct (skippedAtGate card p off) eqn:Hskip; cbn [orb].
  - pose proof (countNote_offerStep_skipped card p cpp acc off Hskip Hle) as Hone.
    rewrite IH by lia. rewrite Hone. destruct (existsb _ offers); reflexivity.
  - pose proof (countNote_offerStep_other card p cpp acc off Hskip) as Hsame.
    rewrite IH by lia. rewrite Hsame. reflexivity.
Qed.

(** The bonus an offer adds does not depend on the notes written so far. *)
Lemma offerStep_bonus_congr (card : Card.t) (p : Params.t) (cpp : Q) (acc acc' : Acc.t)
    (off : Offer.t) :
  Acc.bonusValue acc = Acc.bonusValue acc' ->
  Acc.bonusValue (offerStep card p cpp acc off)
  = Acc.bonusValue (offerStep card p cpp acc' off).
Proof.
  intros Hb. unfold offerStep, percentBack.
  repeat match goal with
         | |- context [if ?b then _ else _] => destruct b
         | |- context [match ?o with Some _ => _ | None => _ end] => destruct o
         end; cbn; rewrite ?Hb; reflexivity.
Qed.

Lemma fold_bonus_congr (card : Card.t) (p : Params.t) (cpp : Q) (offers : list Offer.t)
    (acc acc' : Acc.t) :
  Acc.bonusValue acc = Acc.bonusValue acc' ->
  Acc.bonusValue (fold_left (offerStep card p cpp) offers acc)
  = Acc.bonusValue (fold_left (offerStep card p cpp) offers acc').
Proof.
  revert acc acc'. induction offers as [|off offers IH]; intros acc acc' Hb; [exact Hb|].
  cbn [fold_left]. apply IH, offerStep_bonus_congr, Hb.
Qed.

(** An offer the gate closes for adds nothing, wherever it is stopped. *)
Lemma offerStep_gate_bonus (card : Card.t) (p : Params.t) (cpp : Q) (acc : Acc.t)
    (off : Offer.t) :
  gateCloses p off = true ->
  Acc.bonusValue (offerStep card p cpp acc off) = Acc.bonusValue acc.
Proof.
  unfold gateCloses, offerStep. intros ->.
  repeat match goal with
         | |- context [if ?b then _ else _] => destruct b
         end; reflexivity.
Qed.

(** C3. In every call of [valueFor], an offer that requires enrollment and
    whose id is not in [userEnrolledOfferIds] adds nothing to [bonusValue]
    (the bonus and the total are those of the call without the offer), and
    the note "Offer requires enrollment" occurs in the notes exactly once when
    some offer of the call is skipped at the enrollment gate, however many
    are, and not at all when none is. *)
Theorem enrollment_gate_zero_and_one_note
    (card : Card.t) (p : Params.t) (before after : list Offer.t) (off : Offer.t) :
  Offer.enrollment_required off = true ->
  Offer.id off ∉ Params.userEnrolledOfferIds p ->
  let v := valueFor card p (before ++ off :: after) in
  Valuation.bonusValue v = Valuation.bonusValue (valueFor card p (before ++ after))
  /\ Valuation.dollars v = Valuation.dollars (valueFor card p (before ++ after))
  /\ countNote ENROLL_NOTE (Valuation.notes v)
     = (if existsb (skippedAtGate card p) (before ++ off :: after) then 1 else 0)%nat
  /\ (reachesGate card p off = true ->
      countNote ENROLL_NOTE (Valuation.notes v) = 1%nat).
Proof.
  intros Hreq Hnot v.
  assert (gateCloses p off = true) as Hgate.
  { unfold gateCloses. rewrite Hreq. cbn. rewrite bool_decide_eq_false_2; done. }
  assert (Valuation.bonusValue v
          = Valuation.bonusValue (valueFor card p (before ++ after))) as Hbonus.
  { unfold v, valueFor. cbn [Valuation.bonusValue].
    rewrite !fold_left_app. cbn [fold_left].
    apply fold_bonus_congr, offerStep_gate_bonus, Hgate. }
  assert (countNote ENROLL_NOTE (Valuation.notes v)
          = (if existsb (skippedAtGate card p) (before ++ off :: after) then 1 else 0)%nat)
    as Hcount.
  { unfold v, valueFor. cbn [Valuation.notes].
    rewrite countNote_fold; rewrite countNote_baseEarnings; [reflexivity|lia]. }
  split; [exact Hbonus|]. split; [|split; [exact Hcount|]].
  - unfold v, valueFor in *. cbn [Valuation.dollars Valuation.bonusValue] in *.
    rewrite Hbonus, !fold_offerStep_baseValue. reflexivity.
  - intros Hreach. rewrite Hcount.
    rewrite existsb_app. cbn [existsb]. unfold skippedAtGate at 2.
    rewrite Hreach, Hgate. cbn. rewrite orb_true_r. reflexivity.
Qed.

(** *** Monotonicity in the amount *)

Lemma Qdiv100 (x : Q) : x / 100 == x * (1 # 100).
Proof. reflexivity. Qed.

Lemma numberOr_nonneg (x : option Q) (d : Q) : nonneg x -> 0 <= d -> 0 <= numberOr x d.
Proof.
  unfold numberOr, nonneg. destruct x as [q|]; [|tauto].
  destruct (truthy q); tauto.
Qed.

Lemma CPP_DEFAULTS_nonneg : map_Forall (fun _ cpp => 0 <= cpp) CPP_DEFAULTS.
Proof.
  unfold CPP_DEFAULTS.
  repeat (apply map_Forall_insert_2; [discriminate|]).
  apply map_Forall_empty.
Qed.

Lemma resolveCpp_nonneg (card : Card.t) (p : Params.t) :
  cardNonneg card -> overridesNonneg p ->
  0 <= resolveCpp card (Params.programOverrides p).
Proof.
  intros (_ & Hcpp & _) Hover. unfold resolveCpp, nullish.
  destruct (Params.programOverrides p !! Card.program card) as [o|] eqn:Ho.
  { exact (Hover _ _ Ho). }
  destruct (Card.cpp_default card) as [d|]; [exact Hcpp|].
  destruct (CPP_DEFAULTS !! Card.program card) as [c|] eqn:Hc.
  { exact (CPP_DEFAULTS_nonneg _ _ Hc). }
  cbn. discriminate.
Qed.

Lemma staticMultiplier_nonneg (card : Card.t) (categoryId : string) :
  cardNonneg card -> 0 <= staticMultiplier card categoryId.
Proof.
  intros (Hbase & _ & Hcats & _). unfold staticMultiplier.
  destruct (default ∅ (Card.categories card) !! categoryId) as [m|] eqn:Hm.
  - exact (Hcats _ _ Hm).
  - apply numberOr_nonneg; [exact Hbase|discriminate].
Qed.

Lemma scanRules_In (rules : list Rule.t) (cardId categoryId nowISO : string)
    (userRotating : gmap string UserState.t) (w : Window.t) :
  scanRules rules cardId categoryId nowISO userRotating = Some w ->
  exists r, In r rules /\ w = windowOf r (default UserState.empty (userRotating !! cardId)).
Proof.
  induction rules as [|r rules IH]; [discriminate|].
  cbn [scanRules].
  destruct (ruleWindowContains r nowISO); cbn [negb].
  2:{ intros (r' & Hin & ->)%IH. exists r'. split; [right; exact Hin|reflexivity]. }
  destruct (ruleHasCategory r categoryId); cbn [negb].
  2:{ intros (r' & Hin & ->)%IH. exists r'. split; [right; exact Hin|reflexivity]. }
  intros [= <-]. exists r. split; [left; reflexivity|reflexivity].
Qed.

(** The rates of a resolved window are those of a rule of the card. *)
Lemma window_rates_nonneg (card : Card.t) (categoryId nowISO : string)
    (userRotating : gmap string UserState.t) (w : Window.t) :
  cardNonneg card ->
  activeRotatingWindow card categoryId nowISO userRotating = Some w ->
  0 <= Window.boostRatePercent w /\ nonneg (Window.afterRatePercent w).
Proof.
  intros (_ & _ & _ & Hrules). unfold activeRotatingWindow.
  destruct (Card.rotating_rules card) as [rules|]; [|discriminate].
  destruct (length rules =? 0)%nat; [discriminate|].
  intros (r & Hin & ->)%scanRules_In. cbn in Hrules.
  rewrite List.Forall_forall in Hrules. destruct (Hrules r Hin) as [Hrate Hafter].
  cbn. split; [apply numberOr_nonneg; [exact Hrate|discriminate] | exact Hafter].
Qed.

Lemma capSplit_mono (a1 a2 boost after cap : Q) :
  0 <= boost -> 0 <= after -> a1 <= a2 ->
  CapSplit.baseVal (applyCapSplitPercent a1 boost after cap)
    <= CapSplit.baseVal (applyCapSplitPercent a2 boost after cap)
  /\ CapSplit.boostVal (applyCapSplitPercent a1 boost after cap)
    <= CapSplit.boostVal (applyCapSplitPercent a2 boost after cap).
Proof.
  intros Hboost Hafter Hle. cbn -[Qmin Qmax Qdiv Qmult Qminus].
  set (c := Qmax 0 cap). rewrite !Qdiv100. split.
  - assert (a1 - Qmin a1 c <= a2 - Qmin a2 c) as Hbase.
    { destruct (Q.min_spec a1 c) as [[? ->]|[? ->]],
               (Q.min_spec a2 c) as [[? ->]|[? ->]]; lra. }
    nra.
  - assert (Qmin a1 c <= Qmin a2 c) as Hb by (apply Q.min_le_compat_r; exact Hle).
    nra.
Qed.

Lemma baseEarnings_mono (card : Card.t) (p : Params.t) (cpp a1 a2 : Q) :
  cardNonneg card -> 0 <= cpp -> a1 <= a2 ->
  Acc.baseValue (baseEarnings card (withAmount p a1) cpp)
    <= Acc.baseValue (baseEarnings card (withAmount p a2) cpp)
  /\ Acc.bonusValue (baseEarnings card (withAmount p a1) cpp)
    <= Acc.bonusValue (baseEarnings card (withAmount p a2) cpp).
Proof.
  intros Hcard Hcpp Hle.
  pose proof (staticMultiplier_nonneg card (Params.categoryId p) Hcard) as Hmult.
  unfold baseEarnings. cbn [withAmount Params.amountCents Params.categoryId Params.nowISO
                              Params.userRotating].
  set (m := staticMultiplier card (Params.categoryId p)) in *.
  destruct (String.eqb (cardType card) "cashback").
  - destruct (activeRotatingWindow _ _ _ _) as [w|] eqn:Hwin.
    + destruct (window_rates_nonneg _ _ _ _ _ Hcard Hwin) as [Hboost Hafter].
      destruct (Window.active w).
      * cbn [push addBonus addBase freshAcc Acc.baseValue Acc.bonusValue].
        assert (0 <= default m (Window.afterRatePercent w)) as Hafter'
          by (destruct (Window.afterRatePercent w); assumption).
        destruct (capSplit_mono a1 a2 (Window.boostRatePercent w)
                    (default m (Window.afterRatePercent w)) (Window.remainingCapCents w)
                    Hboost Hafter' Hle) as [Hb Hx].
        split; lra.
      * cbn [push addBase freshAcc Acc.baseValue Acc.bonusValue].
        rewrite !Qdiv100. split; [nra|lra].
    + cbn [addBase freshAcc Acc.baseValue Acc.bonusValue].
      rewrite !Qdiv100. split; [nra|lra].
  - cbn [addBase freshAcc Acc.baseValue Acc.bonusValue].
    rewrite !Qdiv100. assert (0 <= m * cpp) by nra. split; [nra|lra].
Qed.

Lemma percentOf_nonneg (v : option OfferValue.t) :
  nonneg (v ≫= OfferValue.percent) -> 0 <= percentOf v.
Proof. intros Hp. apply numberOr_nonneg; [exact Hp|discriminate]. Qed.

Lemma capCentsOf_nonneg (v : option OfferValue.t) (c : Q) :
  nonneg (v ≫= OfferValue.max_back_cents) ->
  nonneg (v ≫= OfferValue.max_amount_cents) ->
  capCentsOf v = Some c -> 0 <= c.
Proof.
  unfold capCentsOf, nonZero, nonneg.
  destruct (v ≫= OfferValue.max_back_cents) as [b|];
    destruct (v ≫= OfferValue.max_amount_cents) as [m|];
    repeat match goal with
           | |- context [Qeq_bool ?x ?y] => destruct (Qeq_bool x y)
           end; intros Hb Hm [= <-]; assumption.
Qed.

(** The percent block adds more for a larger amount. *)
Lemma percentBack_mono (a1 a2 : Q) (v : option OfferValue.t) (acc1 acc2 : Acc.t) :
  nonneg (v ≫= OfferValue.percent) -> a1 <= a2 ->
  Acc.bonusValue acc1 <= Acc.bonusValue acc2 ->
  Acc.bonusValue (percentBack (a1 / 100) v acc1)
    <= Acc.bonusValue (percentBack (a2 / 100) v acc2).
Proof.
  intros Hp%percentOf_nonneg Hle Hacc. rewrite !percentBack_spec.
  assert (a1 / 100 * (percentOf v / 100) <= a2 / 100 * (percentOf v / 100)) as Hraw
    by (rewrite !Qdiv100; nra).
  destruct (capCentsOf v) as [c|]; cbn [addBonus push Acc.bonusValue].
  - pose proof (Q.min_le_compat_r _ _ (c / 100) Hraw). lra.
  - lra.
Qed.

(** The percent block never takes anything away from a non-negative amount. *)
Lemma percentBack_grows (a : Q) (v : option OfferValue.t) (acc : Acc.t) :
  nonneg (v ≫= OfferValue.percent) ->
  nonneg (v ≫= OfferValue.max_back_cents) ->
  nonneg (v ≫= OfferValue.max_amount_cents) ->
  0 <= a ->
  Acc.bonusValue acc <= Acc.bonusValue (percentBack (a / 100) v acc).
Proof.
  intros Hp%percentOf_nonneg Hb Hm Ha. rewrite percentBack_spec.
  assert (0 <= a / 100 * (percentOf v / 100)) as Hraw by (rewrite !Qdiv100; nra).
  destruct (capCentsOf v) as [c|] eqn:Hc; cbn [addBonus push Acc.bonusValue].
  - pose proof (capCentsOf_nonneg v c Hb Hm Hc) as Hc0.
    assert (0 <= c / 100) as Hcap by (rewrite Qdiv100; lra).
    pose proof (Q.min_glb _ _ _ Hraw Hcap). lra.
  - lra.
Qed.

(** One turn of the offer loop keeps the order of the bonus values of two
    runs that differ in the amount alone. *)
Lemma offerStep_mono (card : Card.t) (p : Params.t) (cpp a1 a2 : Q) (acc1 acc2 : Acc.t)
    (off : Offer.t) :
  offerNonneg off -> 0 <= cpp -> 0 <= a1 -> a1 <= a2 ->
  Acc.bonusValue acc1 <= Acc.bonusValue acc2 ->
  Acc.bonusValue (offerStep card (withAmount p a1) cpp acc1 off)
    <= Acc.bonusValue (offerStep card (withAmount p a2) cpp acc2 off).
Proof.
  intros (Hfixed & Hpct & Hmult & Hback & Hamt) Hcpp Ha1 Hle Hacc.
  unfold offerStep.
  cbn [withAmount Params.amountCents Params.categoryId Params.nowISO
         Params.userEnrolledOfferIds].
  destruct (offerActiveNow off (Params.nowISO p)); [|exact Hacc].
  destruct (offerAppliesToCard off card); [|exact Hacc].
  destruct (offerMatchesCategory off (Params.categoryId p)); [|exact Hacc].
  cbn [negb].
  destruct (Offer.enrollment_required off && _).
  { do 2 case_bool_decide; exact Hacc. }
  destruct (String.eqb (Offer.offer_type off) "statement_credit").
  { set (min := numberOr (Offer.min_spend_cents off) 0).
    destruct (Qle_bool min a1) eqn:H1, (Qle_bool min a2) eqn:H2.
    - destruct (Offer.value off ≫= OfferValue.fixed_amount) as [f|].
      + destruct (truthy f).
        * cbn [push addBonus Acc.bonusValue]. lra.
        * destruct (truthyNum _); [apply percentBack_mono; assumption|exact Hacc].
      + destruct (truthyNum _); [apply percentBack_mono; assumption|exact Hacc].
    - apply Qle_bool_iff in H1.
      assert (Qle_bool min a2 = true) as H2' by (apply Qle_bool_iff; lra).
      congruence.
    - assert (0 <= a2) as Ha2 by lra.
      destruct (Offer.value off ≫= OfferValue.fixed_amount) as [f|].
      + destruct (truthy f).
        * cbn [push addBonus Acc.bonusValue]. cbn in Hfixed.
          rewrite Qdiv100. lra.
        * destruct (truthyNum _); [|exact Hacc].
          pose proof (percentBack_grows a2 (Offer.value off) acc2 Hpct Hback Hamt Ha2).
          lra.
      + destruct (truthyNum _); [|exact Hacc].
        pose proof (percentBack_grows a2 (Offer.value off) acc2 Hpct Hback Hamt Ha2).
        lra.
    - exact Hacc. }
  destruct (String.eqb (Offer.offer_type off) "percent_back").
  { apply percentBack_mono; assumption. }
  destruct (String.eqb (Offer.offer_type off) "points_multiplier"); [|exact Hacc].
  pose proof (numberOr_nonneg _ 0 Hmult (Qle_refl 0)) as Hx.
  set (x := numberOr (Offer.value off ≫= OfferValue.points_multiplier) 0) in *.
  destruct (String.eqb (cardType card) "cashback");
    cbn [push addBonus Acc.bonusValue]; rewrite !Qdiv100.
  - nra.
  - assert (0 <= x * cpp) by nra. nra.
Qed.

Lemma fold_offerStep_mono (card : Card.t) (p : Params.t) (cpp a1 a2 : Q)
    (offers : list Offer.t) (acc1 acc2 : Acc.t) :
  Forall offerNonneg offers -> 0 <= cpp -> 0 <= a1 -> a1 <= a2 ->
  Acc.bonusValue acc1 <= Acc.bonusValue acc2 ->
  Acc.bonusValue (fold_left (offerStep card (withAmount p a1) cpp) offers acc1)
    <= Acc.bonusValue (fold_left (offerStep card (withAmount p a2) cpp) offers acc2).
Proof.
  intros Hoffers Hcpp Ha1 Hle. revert acc1 acc2.
  induction Hoffers as [|off offers Hoff _ IH]; intros acc1 acc2 Hacc; [exact Hacc|].
  cbn [fold_left]. apply IH, offerStep_mono; assumption.
Qed.

(** C8, with the assumption it needs. For a fixed card, category, instant,
    user state and offer list whose rates, multipliers, cents-per-point
    values, caps and fixed credit amounts are not negative, [dollars] is a
    non-decreasing function of a non-negative [amountCents]. *)
Theorem valueFor_monotone_in_amount
    (card : Card.t) (p : Params.t) (offers : list Offer.t) (a1 a2 : Q) :
  cardNonneg card ->
  overridesNonneg p ->
  Forall offerNonneg offers ->
  0 <= a1 -> a1 <= a2 ->
  Valuation.dollars (valueFor card (withAmount p a1) offers)
    <= Valuation.dollars (valueFor card (withAmount p a2) offers).
Proof.
  intros Hcard Hover Hoffers Ha1 Hle.
  pose proof (resolveCpp_nonneg card p Hcard Hover) as Hcpp.
  unfold valueFor. cbn [Valuation.dollars withAmount Params.programOverrides].
  set (cpp := resolveCpp card (Params.programOverrides p)) in *.
  rewrite !fold_offerStep_baseValue.
  destruct (baseEarnings_mono card p cpp a1 a2 Hcard Hcpp Hle) as [Hbase Hbonus].
  pose proof (fold_offerStep_mono card p cpp a1 a2 offers _ _ Hoffers Hcpp Ha1 Hle Hbonus)
    as Hfold.
  fold (withAmount p a1) (withAmount p a2).
  lra.
Qed.

End ValuationProps.



(** ** The ranker *)

Section Sorting.
Context {A : Type} (cmp : A -> A -> Q).

Lemma insertBy_Permutation (x : A) (l : list A) : Permutation (insertBy cmp x l) (x :: l).
Proof.
  induction l as [|y l IH]; [reflexivity|].
  cbn [insertBy]. destruct (Qgtb (cmp x y) 0); [|reflexivity].
  rewrite IH. apply perm_swap.
Qed.

Lemma sortBy_Permutation (l : list A) : Permutation (sortBy cmp l) l.
Proof.
  induction l as [|x l IH]; [reflexivity|].
  cbn. rewrite insertBy_Permutation, IH. reflexivity.
Qed.

(** Stability: the elements a test [f] keeps stay in their order, provided
    the comparator never asks to move one of them behind another. *)
Lemma insertBy_filter (f : A -> bool) (x : A) (l : list A) :
  (forall y, f x = true -> f y = true -> Qgtb (cmp x y) 0 = false) ->
  List.filter f (insertBy cmp x l)
  = if f x then x :: List.filter f l else List.filter f l.
Proof.
  intros Hf. induction l as [|y l IH]; [reflexivity|].
  cbn [insertBy]. destruct (Qgtb (cmp x y) 0) eqn:Hgt; [|reflexivity].
  cbn [List.filter]. rewrite IH.
  destruct (f x) eqn:Hx, (f y) eqn:Hy; try reflexivity.
  rewrite (Hf y eq_refl Hy) in Hgt. discriminate.
Qed.

Lemma sortBy_filter (f : A -> bool) (l : list A) :
  (forall x y, f x = true -> f y = true -> Qgtb (cmp x y) 0 = false) ->
  List.filter f (sortBy cmp l) = List.filter f l.
Proof.
  intros Hf. induction l as [|x l IH]; [reflexivity|].
  cbn [sortBy foldr]. fold (sortBy cmp l).
  rewrite insertBy_filter by (intros y; apply Hf).
  cbn [List.filter]. rewrite IH. reflexivity.
Qed.

Hypothesis cmp_antisym : forall x y, 0 < cmp x y -> cmp y x <= 0.
Hypothesis cmp_trans : forall x y z, cmp x y <= 0 -> cmp y z <= 0 -> cmp x z <= 0.

Lemma insertBy_sorted (x : A) (l : list A) :
  StronglySorted (fun a b => cmp a b <= 0) l ->
  StronglySorted (fun a b => cmp a b <= 0) (insertBy cmp x l).
Proof.
  induction 1 as [|y l Hsorted IH Hall]; [repeat constructor|].
  cbn [insertBy]. destruct (Qgtb (cmp x y) 0) eqn:Hgt.
  - apply Qgtb_true in Hgt. constructor; [exact IH|].
    apply (Permutation_Forall (Permutation_sym (insertBy_Permutation x l))).
    constructor; [apply cmp_antisym, Hgt|exact Hall].
  - apply Qgtb_false in Hgt. constructor; [constructor; assumption|].
    constructor; [exact Hgt|].
    eapply List.Forall_impl; [|exact Hall]. intros z Hz. cbn in Hz.
    exact (cmp_trans x y z Hgt Hz).
Qed.

Lemma sortBy_sorted (l : list A) : StronglySorted (fun a b => cmp a b <= 0) (sortBy cmp l).
Proof.
  induction l as [|x l IH]; [constructor|].
  cbn [sortBy foldr]. apply insertBy_sorted, IH.
Qed.

End Sorting.

Lemma StronglySorted_weaken {A : Type} (R R' : A -> A -> Prop) (l : list A) :
  (forall a b, R a b -> R' a b) -> StronglySorted R l -> StronglySorted R' l.
Proof.
  intros Himpl. induction 1 as [|x l _ IH Hall]; constructor; [exact IH|].
  eapply List.Forall_impl; [|exact Hall]. intros b. apply Himpl.
Qed.

(** Case analysis on the [!==] test of the comparator. *)
Ltac case_Qeq_bool :=
  match goal with
  | |- context [Qeq_bool ?x ?y] =>
      let E := fresh "E" in
      destruct (Qeq_bool x y) eqn:E;
      [apply Qeq_bool_iff in E | apply Qeq_bool_neq in E]
  | H : context [Qeq_bool ?x ?y] |- _ =>
      let E := fresh "E" in
      destruct (Qeq_bool x y) eqn:E;
      [apply Qeq_bool_iff in E | apply Qeq_bool_neq in E]
  end.

Lemma Qneq_cases (x y : Q) : ~ x == y -> x < y \/ y < x.
Proof. intros Hne. destruct (Q_dec x y) as [[Hlt|Hgt]|Heq]; tauto. Qed.

Lemma compareFn_rankedBefore (a b : Ranked.t) :
  compareFn a b <= 0 <-> rankedBefore a b.
Proof.
  unfold compareFn, rankedBefore. case_Qeq_bool; cbn [negb].
  - split; [intros Hc; right; split; lra|intros [Hlt|[_ Hle]]; lra].
  - apply Qneq_cases in E. split; [intros Hc; left; lra|intros [Hlt|[Heq _]]; lra].
Qed.

Lemma compareFn_antisym (x y : Ranked.t) : 0 < compareFn x y -> compareFn y x <= 0.
Proof.
  unfold compareFn. repeat case_Qeq_bool; cbn [negb]; intros Hc; lra.
Qed.

Lemma compareFn_trans (x y z : Ranked.t) :
  compareFn x y <= 0 -> compareFn y z <= 0 -> compareFn x z <= 0.
Proof.
  rewrite !compareFn_rankedBefore. unfold rankedBefore.
  intros [?|[? ?]] [?|[? ?]]; [left|left|left|right; split]; lra.
Qed.

(** Two results tied with a third are not reordered by the comparator. *)
Lemma compareFn_tied (z x y : Ranked.t) :
  tied z x = true -> tied z y = true -> Qgtb (compareFn x y) 0 = false.
Proof.
  unfold tied.
  intros [Hdx%Qeq_bool_iff Hbx%Qeq_bool_iff]%andb_true_iff
         [Hdy%Qeq_bool_iff Hby%Qeq_bool_iff]%andb_true_iff.
  apply Qgtb_false. unfold compareFn. case_Qeq_bool; cbn [negb]; lra.
Qed.

(** C1. For every wallet, [rankCards] values each card once (its result is a
    rearrangement of the cards' valuations, in particular of the same length),
    and returns them sorted by decreasing [dollars], ties by decreasing
    [bonusValue]; results equal on both fields keep the order their cards
    have in the wallet; an empty wallet gives an empty list. *)
Theorem rankCards_sorted_stable {fmt : NumberFormat}
    (cards : list Card.t) (params : Params.t) (offersByCard : gmap string (list Offer.t)) :
  let results := rankCards cards params offersByCard in
  let unsorted :=
    map (fun card => rankedOf card
                       (valueFor card params (default [] (offersByCard !! Card.id card))))
        cards in
  Permutation results unsorted
  /\ length results = length cards
  /\ StronglySorted rankedBefore results
  /\ (forall x : Ranked.t, List.filter (tied x) results = List.filter (tied x) unsorted)
  /\ rankCards [] params offersByCard = [].
Proof.
  intros results unsorted.
  assert (Permutation results unsorted) as Hperm by apply sortBy_Permutation.
  split; [exact Hperm|]. split; [|split; [|split]].
  - rewrite (Permutation_length Hperm). unfold unsorted. apply length_map.
  - eapply StronglySorted_weaken; [|apply (sortBy_sorted compareFn)].
    + intros a b. apply compareFn_rankedBefore.
    + exact compareFn_antisym.
    + exact compareFn_trans.
  - intros x. apply sortBy_filter. apply compareFn_tied.
  - reflexivity.
Qed.

(** ** Evaluations on the sample data *)

Lemma valueFor_points_ignores_rotating_witness :
  Valuation.baseValue (valueFor (fmt:=exactFormat) pointsCard (sampleParams 200000 ∅) []) == 25
  /\ valueFor (fmt:=exactFormat) (withRotatingRules pointsCard None)
       (withUserRotating (sampleParams 200000 ∅) activatedState) []
     = valueFor (fmt:=exactFormat) pointsCard (sampleParams 200000 ∅) [].
Proof.
  destruct (valueFor_points_ignores_rotating (fmt:=exactFormat) pointsCard
              (sampleParams 200000 ∅) []) as [Hbase Hsame].
  - left. reflexivity.
  - split.
    + rewrite Hbase. vm_compute. reflexivity.
    + apply Hsame.
Defined.

Lemma offer_with_other_scope_ignored_witness :
  offerAppliesToCard nullScopeOffer groceryCard = false
  /\ valueFor (fmt:=exactFormat) groceryCard (sampleParams 5000 ∅) ([] ++ nullScopeOffer :: [])
     = valueFor (fmt:=exactFormat) groceryCard (sampleParams 5000 ∅) ([] ++ []).
Proof.
  apply (offer_with_other_scope_ignored (fmt:=exactFormat) nullScopeOffer groceryCard
           (sampleParams 5000 ∅) [] []).
  - discriminate.
  - reflexivity.
Defined.

Lemma enrollment_gate_zero_and_one_note_witness :
  let offers := [enrollOffer "a"] ++ enrollOffer "b" :: [cappedOffer] in
  let v := valueFor (fmt:=exactFormat) groceryCard (sampleParams 5000 ∅) offers in
  Valuation.bonusValue v
  = Valuation.bonusValue (valueFor (fmt:=exactFormat) groceryCard (sampleParams 5000 ∅)
                            ([enrollOffer "a"] ++ [cappedOffer]))
  /\ countNote ENROLL_NOTE (Valuation.notes v) = 1%nat.
Proof.
  destruct (enrollment_gate_zero_and_one_note (fmt:=exactFormat) groceryCard
              (sampleParams 5000 ∅) [enrollOffer "a"] [cappedOffer] (enrollOffer "b"))
    as (Hbonus & _ & _ & Hone).
  - reflexivity.
  - apply not_elem_of_empty.
  - split; [exact Hbonus | apply Hone; reflexivity].
Defined.

Lemma percent_offer_cap_first_nonzero_witness :
  Acc.bonusValue (offerStep (fmt:=exactFormat) groceryCard (sampleParams 50000 ∅) 1
                    freshAcc zeroCapOffer) == 20.
Proof.
  rewrite (percent_offer_cap_first_nonzero (fmt:=exactFormat) groceryCard
             (sampleParams 50000 ∅) 1 freshAcc zeroCapOffer) by reflexivity.
  vm_compute. reflexivity.
Defined.

(** C6, as stated, fails: with [max_back_cents] equal to 0 and
    [max_amount_cents] equal to 2000, a 10% offer on $500.00 is capped at
    $20.00, not at $0.00. *)
Lemma zero_max_back_cents_is_no_cap :
  let v := valueFor (fmt:=exactFormat) groceryCard (sampleParams 50000 ∅) [zeroCapOffer] in
  Offer.value zeroCapOffer ≫= OfferValue.max_back_cents = Some 0
  /\ Valuation.bonusValue v == 20
  /\ ~ Valuation.bonusValue v == 0
  /\ Valuation.notes v = ["10% back (capped at $20.00)"%string].
Proof.
  cbv zeta. split; [reflexivity|]. split; [vm_compute; reflexivity|].
  split; [vm_compute; discriminate|vm_compute; reflexivity].
Qed.

Lemma percent_offer_note_tells_cap_present_witness :
  Acc.notes (offerStep (fmt:=exactFormat) groceryCard (sampleParams 10000 ∅) 1
               freshAcc cappedOffer)
  = ["10% back (capped at $20.00)"%string].
Proof.
  rewrite (percent_offer_note_tells_cap_present (fmt:=exactFormat) groceryCard
             (sampleParams 10000 ∅) 1 freshAcc cappedOffer) by reflexivity.
  vm_compute. reflexivity.
Defined.

(** C9, as stated, fails: a 10% offer capped at $20.00, on $100.00, adds its
    raw $10.00 (the cap lowers nothing) and its note still says "capped". *)
Lemma capped_note_though_cap_lowers_nothing :
  let v := valueFor (fmt:=exactFormat) groceryCard (sampleParams 10000 ∅) [cappedOffer] in
  Valuation.bonusValue v == 10000 / 100 * (10 / 100)
  /\ Valuation.notes v = ["10% back (capped at $20.00)"%string].
Proof.
  cbv zeta. split; vm_compute; reflexivity.
Qed.

(** C8, as stated, fails: every rate, multiplier and cap is non-negative, yet
    a statement credit with a negative fixed amount makes $10.00 worth less
    than $9.99. *)
Lemma negative_fixed_amount_breaks_monotonicity :
  let lo := valueFor (fmt:=exactFormat) groceryCard (sampleParams 999 ∅) [negativeCreditOffer] in
  let hi := valueFor (fmt:=exactFormat) groceryCard (sampleParams 1000 ∅) [negativeCreditOffer] in
  999 <= 1000
  /\ Valuation.dollars lo == 0.2997
  /\ Valuation.dollars hi == -4.7
  /\ Valuation.dollars hi < Valuation.dollars lo.
Proof.
  cbv zeta. split; [discriminate|]. repeat split; vm_compute; reflexivity.
Qed.

Lemma valueFor_monotone_in_amount_witness :
  Valuation.dollars (valueFor (fmt:=exactFormat) rotatingCard
                       (withAmount (sampleParams 0 activatedState) 1000)
                       [creditOffer; cappedOffer])
  <= Valuation.dollars (valueFor (fmt:=exactFormat) rotatingCard
                          (withAmount (sampleParams 0 activatedState) 200000)
                          [creditOffer; cappedOffer]).
Proof.
  apply (valueFor_monotone_in_amount (fmt:=exactFormat) rotatingCard
           (sampleParams 0 activatedState) [creditOffer; cappedOffer] 1000 200000).
  - split; [discriminate|]. split; [exact I|].
    split; [apply map_Forall_empty|].
    repeat constructor; discriminate.
  - apply map_Forall_empty.
  - repeat constructor; discriminate.
  - discriminate.
  - discriminate.
Defined.

(** ** The scenarios of the specification, evaluated *)

Example scenario_cashback_static_rate :
  let v := valueFor (fmt:=exactFormat) groceryCard (sampleParams 5000 ∅) [] in
  Valuation.baseValue v == 1.5 /\ Valuation.bonusValue v == 0
  /\ Valuation.dollars v == 1.5 /\ Valuation.notes v = [].
Proof. cbv zeta. repeat split; vm_compute; reflexivity. Qed.

Example scenario_rotating_cap_split :
  let v := valueFor (fmt:=exactFormat) rotatingCard (sampleParams 200000 activatedState) [] in
  Valuation.bonusValue v == 50 /\ Valuation.baseValue v == 10
  /\ Valuation.dollars v == 60
  /\ Valuation.notes v = ["Rotating 5% applied to $1000.00 (cap remaining)"%string].
Proof. cbv zeta. repeat split; vm_compute; reflexivity. Qed.

Example scenario_not_activated :
  let v := valueFor (fmt:=exactFormat) rotatingCard (sampleParams 200000 ∅) [] in
  Valuation.bonusValue v == 0 /\ Valuation.baseValue v == 20
  /\ Valuation.notes v = ["Activation required for rotating bonus"%string].
Proof. cbv zeta. repeat split; vm_compute; reflexivity. Qed.

Example scenario_statement_credit_with_cap :
  let v := valueFor (fmt:=exactFormat) groceryCard (sampleParams 50000 ∅) [creditOffer] in
  Valuation.bonusValue v == 20
  /\ Valuation.notes v = ["10% back (capped at $20.00)"%string].
Proof. cbv zeta. repeat split; vm_compute; reflexivity. Qed.

Example scenario_enrollment_gate :
  let v := valueFor (fmt:=exactFormat) groceryCard (sampleParams 5000 ∅)
             [enrollOffer "a"; enrollOffer "b"] in
  Valuation.bonusValue v == 0
  /\ Valuation.notes v = ["Offer requires enrollment"%string].
Proof. cbv zeta. repeat split; vm_compute; reflexivity. Qed.

(** The rotating card and the grocery card both earn $60.00; the rotating
    card's larger bonus puts it first.  The two grocery cards tie on both
    fields and keep the order of the wallet. *)
Example scenario_ranking :
  cardIds (rankCards (fmt:=exactFormat) [pointsCard; groceryCard; groceryTwin; rotatingCard]
             (sampleParams 200000 activatedState) ∅)
  = ["discover_it"; "grocer"; "twin"; "sapphire"]%string
  /\ cardIds (rankCards (fmt:=exactFormat) [groceryTwin; pointsCard; groceryCard; rotatingCard]
                (sampleParams 200000 activatedState) ∅)
     = ["discover_it"; "twin"; "grocer"; "sapphire"]%string.
Proof. split; vm_compute; reflexivity. Qed.

(** * Further properties of the engine *)

(** ** Utilities and rates *)

(** X1. With [lo <= hi], [clampNum] lands in [[lo, hi]] and leaves alone
    exactly the numbers already there. *)
Theorem clampNum_in_range (n lo hi : Q) :
  lo <= hi ->
  lo <= clampNum n lo hi
  /\ clampNum n lo hi <= hi
  /\ (clampNum n lo hi == n <-> lo <= n /\ n <= hi).
Proof.
  intros Hle. unfold clampNum.
  destruct (Q.max_spec lo (Qmin hi n)) as [[H1 E1]|[H1 E1]];
    destruct (Q.min_spec hi n) as [[H2 E2]|[H2 E2]];
    rewrite E2 in *; rewrite E1; repeat split; try lra; intros; lra.
Qed.

Lemma clampNum_in_range_witness :
  0 <= clampNum 7 0 5 /\ clampNum 7 0 5 <= 5 /\ (clampNum 7 0 5 == 7 <-> 0 <= 7 /\ 7 <= 5).
Proof. apply (clampNum_in_range 7 0 5). discriminate. Defined.

(** X2. Outside the categories a card lists, the multiplier is the card's
    [base], and a base that is absent or zero counts as 1, so the multiplier
    is never zero there; a category the card lists keeps its rate, zero
    included. *)
Theorem staticMultiplier_fallback (card : Card.t) (categoryId : string) :
  default ∅ (Card.categories card) !! categoryId = None ->
  ~ staticMultiplier card categoryId == 0
  /\ (nonZero (Card.base card) = None -> staticMultiplier card categoryId = 1)
  /\ (forall b, nonZero (Card.base card) = Some b -> staticMultiplier card categoryId = b).
Proof.
  intros Hnone. unfold staticMultiplier. rewrite Hnone.
  unfold numberOr, nonZero, truthy. destruct (Card.base card) as [b|].
  - destruct (Qeq_bool b 0) eqn:E; cbn.
    + repeat split; [discriminate|intros ? [=]].
    + apply Qeq_bool_neq in E. repeat split; [exact E|discriminate|intros ? [= <-]; reflexivity].
  - repeat split; [discriminate|intros ? [=]].
Qed.

Lemma staticMultiplier_fallback_witness :
  ~ staticMultiplier rotatingCard "dining" == 0
  /\ (nonZero (Card.base rotatingCard) = None -> staticMultiplier rotatingCard "dining" = 1)
  /\ (forall b, nonZero (Card.base rotatingCard) = Some b ->
                staticMultiplier rotatingCard "dining" = b).
Proof. apply (staticMultiplier_fallback rotatingCard "dining"). reflexivity. Defined.

Section MoreValuation.
Context {fmt : NumberFormat}.

Lemma fold_left_pointwise {A B : Type} (f g : A -> B -> A) (l : list B) (a : A) :
  (forall x y, f x y = g x y) -> fold_left f l a = fold_left g l a.
Proof.
  intros Hfg. revert a. induction l as [|y l IH]; intros a; [reflexivity|].
  cbn. rewrite Hfg. apply IH.
Qed.

Lemma cardType_cashback (card : Card.t) :
  Card.type card = Some "cashback"%string -> String.eqb (cardType card) "cashback" = true.
Proof. unfold cardType. intros ->. reflexivity. Qed.

Lemma baseEarnings_cashback_cpp (card : Card.t) (p : Params.t) (cpp cpp' : Q) :
  String.eqb (cardType card) "cashback" = true ->
  baseEarnings card p cpp = baseEarnings card p cpp'.
Proof. intros Hc. unfold baseEarnings. rewrite Hc. reflexivity. Qed.

Lemma offerStep_cashback_cpp (card : Card.t) (p : Params.t) (cpp cpp' : Q) (acc : Acc.t)
    (off : Offer.t) :
  String.eqb (cardType card) "cashback" = true ->
  offerStep card p cpp acc off = offerStep card p cpp' acc off.
Proof. intros Hc. unfold offerStep. rewrite Hc. reflexivity. Qed.

(** X3. The valuation of a cashback card never uses a cents-per-point value:
    it is the same whatever [programOverrides] the call gives and whatever
    [cpp_default] the card has. *)
Theorem valueFor_cashback_ignores_cpp
    (card : Card.t) (p : Params.t) (offers : list Offer.t)
    (overrides : gmap string Q) (cpp : option Q) :
  Card.type card = Some "cashback"%string ->
  valueFor (withCppDefault card cpp) (withOverrides p overrides) offers
  = valueFor card p offers.
Proof.
  intros Hc%cardType_cashback. unfold valueFor.
  set (c' := resolveCpp (withCppDefault card cpp) _).
  set (c := resolveCpp card _).
  assert (fold_left (offerStep (withCppDefault card cpp) (withOverrides p overrides) c')
            offers (baseEarnings (withCppDefault card cpp) (withOverrides p overrides) c')
          = fold_left (offerStep card p c) offers (baseEarnings card p c)) as ->;
    [|reflexivity].
  rewrite (baseEarnings_cashback_cpp (withCppDefault card cpp) _ c' c) by exact Hc.
  change (baseEarnings (withCppDefault card cpp) (withOverrides p overrides) c)
    with (baseEarnings card p c).
  apply fold_left_pointwise. intros acc off.
  rewrite (offerStep_cashback_cpp (withCppDefault card cpp) _ c' c) by exact Hc.
  reflexivity.
Qed.

(** X4. Offers never touch the base value: [baseValue] is what the card
    earns with no offer at all. *)
Theorem valueFor_baseValue_without_offers
    (card : Card.t) (p : Params.t) (offers : list Offer.t) :
  Valuation.baseValue (valueFor card p offers) = Valuation.baseValue (valueFor card p []).
Proof.
  unfold valueFor. cbn [Valuation.baseValue fold_left]. apply fold_offerStep_baseValue.
Qed.

(** One turn of the offer loop appends at most one note and rewrites none. *)
Lemma offerStep_notes_grow (card : Card.t) (p : Params.t) (cpp : Q) (acc : Acc.t)
    (off : Offer.t) :
  exists extra, Acc.notes (offerStep card p cpp acc off) = Acc.notes acc ++ extra
                /\ (length extra <= 1)%nat.
Proof.
  unfold offerStep, percentBack.
  repeat match goal with
         | |- context [if ?b then _ else _] => destruct b
         | |- context [match ?o with Some _ => _ | None => _ end] => destruct o
         end;
    first [ exists []; split; [symmetry; apply app_nil_r | cbn; lia]
          | eexists [_]; split; [reflexivity | cbn; lia] ].
Qed.

Lemma fold_offerStep_notes_grow (card : Card.t) (p : Params.t) (cpp : Q)
    (offers : list Offer.t) (acc : Acc.t) :
  exists extra,
    Acc.notes (fold_left (offerStep card p cpp) offers acc) = Acc.notes acc ++ extra
    /\ (length extra <= length offers)%nat.
Proof.
  revert acc. induction offers as [|off offers IH]; intros acc.
  - exists []. split; [symmetry; apply app_nil_r|reflexivity].
  - cbn [fold_left]. destruct (IH (offerStep card p cpp acc off)) as (e2 & -> & Hl2).
    destruct (offerStep_notes_grow card p cpp acc off) as (e1 & -> & Hl1).
    exists (e1 ++ e2). split; [symmetry; apply app_assoc|].
    rewrite length_app. cbn [length]. lia.
Qed.

(** X5. Notes are append-only: the notes of a call over [l1 ++ l2] start with
    the notes of the call over [l1] (in particular with the base step's
    note), followed by at most one note per offer of [l2]. *)
Theorem valueFor_notes_append_only
    (card : Card.t) (p : Params.t) (l1 l2 : list Offer.t) :
  exists extra,
    Valuation.notes (valueFor card p (l1 ++ l2)) = Valuation.notes (valueFor card p l1) ++ extra
    /\ (length extra <= length l2)%nat.
Proof.
  unfold valueFor. cbn [Valuation.notes]. rewrite fold_left_app.
  apply fold_offerStep_notes_grow.
Qed.

(** ** Stacking *)

(** What one offer adds does not depend on what was added before it. *)
Lemma offerStep_bonus_add (card : Card.t) (p : Params.t) (cpp : Q) (acc : Acc.t)
    (off : Offer.t) :
  Acc.bonusValue (offerStep card p cpp acc off)
  == Acc.bonusValue acc + Acc.bonusValue (offerStep card p cpp freshAcc off).
Proof.
  unfold offerStep, percentBack.
  repeat match goal with
         | |- context [if ?b then _ else _] => destruct b
         | |- context [match ?o with Some _ => _ | None => _ end] => destruct o
         end;
    cbn [Acc.bonusValue addBonus push freshAcc]; ring.
Qed.

Lemma fold_offerStep_bonus_sum (card : Card.t) (p : Params.t) (cpp : Q)
    (offers : list Offer.t) (acc : Acc.t) :
  Acc.bonusValue (fold_left (offerStep card p cpp) offers acc)
  == Acc.bonusValue acc
     + Qsum (map (fun off => Acc.bonusValue (offerStep card p cpp freshAcc off)) offers).
Proof.
  revert acc. induction offers as [|off offers IH]; intros acc.
  - cbn. ring.
  - cbn [fold_left map Qsum foldr]. rewrite IH, offerStep_bonus_add.
    fold (Qsum (map (fun off => Acc.bonusValue (offerStep card p cpp freshAcc off)) offers)).
    ring.
Qed.

Lemma Qsum_app (l1 l2 : list Q) : Qsum (l1 ++ l2) == Qsum l1 + Qsum l2.
Proof.
  unfold Qsum. induction l1 as [|x l1 IH]; cbn [app foldr]; [ring|].
  rewrite IH. ring.
Qed.

Lemma Qsum_Permutation (l1 l2 : list Q) : Permutation l1 l2 -> Qsum l1 == Qsum l2.
Proof.
  unfold Qsum. induction 1 as [|x l1 l2 _ IH|x y l|l1 l2 l3 _ IH1 _ IH2]; cbn [foldr].
  - reflexivity.
  - rewrite IH. reflexivity.
  - ring.
  - rewrite IH1. exact IH2.
Qed.

(** X6. Offers stack additively, in exact arithmetic: the bonus of a call
    over [l1 ++ l2] is the bonus over [l1] plus what the offers of [l2] add
    on their own (their bonus over the bonus of the call with no offer).
    The numbers of the model are rationals; on the doubles of the code the
    two sides are sums of the same terms taken in another order and can
    differ by the rounding of the additions. *)
Theorem valueFor_stacking_additive
    (card : Card.t) (p : Params.t) (l1 l2 : list Offer.t) :
  Valuation.bonusValue (valueFor card p (l1 ++ l2))
  == Valuation.bonusValue (valueFor card p l1)
     + (Valuation.bonusValue (valueFor card p l2) - Valuation.bonusValue (valueFor card p [])).
Proof.
  unfold valueFor. cbn [Valuation.bonusValue fold_left].
  rewrite !fold_offerStep_bonus_sum, map_app, Qsum_app. ring.
Qed.

(** X7. The order of the offers does not change the money: two calls over
    rearrangements of the same offers agree on [baseValue], [bonusValue] and
    [dollars] (the notes follow the order of the list). *)
Theorem valueFor_offer_order_irrelevant
    (card : Card.t) (p : Params.t) (offers offers' : list Offer.t) :
  Permutation offers offers' ->
  Valuation.baseValue (valueFor card p offers) = Valuation.baseValue (valueFor card p offers')
  /\ Valuation.bonusValue (valueFor card p offers)
     == Valuation.bonusValue (valueFor card p offers')
  /\ Valuation.dollars (valueFor card p offers) == Valuation.dollars (valueFor card p offers').
Proof.
  intros Hperm. unfold valueFor.
  cbn [Valuation.baseValue Valuation.bonusValue Valuation.dollars].
  rewrite !fold_offerStep_baseValue.
  assert (Acc.bonusValue (fold_left (offerStep card p (resolveCpp card (Params.programOverrides p)))
                            offers (baseEarnings card p (resolveCpp card (Params.programOverrides p))))
          == Acc.bonusValue (fold_left (offerStep card p (resolveCpp card (Params.programOverrides p)))
                               offers' (baseEarnings card p (resolveCpp card (Params.programOverrides p)))))
    as Hbonus.
  { rewrite !fold_offerStep_bonus_sum.
    rewrite (Qsum_Permutation _ _ (Permutation_map _ Hperm)). reflexivity. }
  split; [reflexivity|]. split; [exact Hbonus|]. rewrite Hbonus. reflexivity.
Qed.

(** An offer with no negative value never takes anything away. *)
Lemma offerStep_grows (card : Card.t) (p : Params.t) (cpp : Q) (acc : Acc.t) (off : Offer.t) :
  offerNonneg off -> 0 <= cpp -> 0 <= Params.amountCents p ->
  Acc.bonusValue acc <= Acc.bonusValue (offerStep card p cpp acc off).
Proof.
  intros (Hfixed & Hpct & Hmult & Hback & Hamt) Hcpp Ha.
  unfold offerStep.
  destruct (offerActiveNow off (Params.nowISO p)); [|apply Qle_refl].
  destruct (offerAppliesToCard off card); [|apply Qle_refl].
  destruct (offerMatchesCategory off (Params.categoryId p)); [|apply Qle_refl].
  cbn [negb].
  destruct (Offer.enrollment_required off && _).
  { case_bool_decide; apply Qle_refl. }
  destruct (String.eqb (Offer.offer_type off) "statement_credit").
  { destruct (Qle_bool _ _); [|apply Qle_refl].
    destruct (Offer.value off ≫= OfferValue.fixed_amount) as [f|].
    - destruct (truthy f).
      + cbn [push addBonus Acc.bonusValue]. cbn in Hfixed. rewrite Qdiv100. lra.
      + destruct (truthyNum _); [apply percentBack_grows; assumption|apply Qle_refl].
    - destruct (truthyNum _); [apply percentBack_grows; assumption|apply Qle_refl]. }
  destruct (String.eqb (Offer.offer_type off) "percent_back").
  { apply percentBack_grows; assumption. }
  destruct (String.eqb (Offer.offer_type off) "points_multiplier"); [|apply Qle_refl].
  pose proof (numberOr_nonneg _ 0 Hmult (Qle_refl 0)) as Hx.
  set (x := numberOr (Offer.value off ≫= OfferValue.points_multiplier) 0) in *.
  destruct (String.eqb (cardType card) "cashback");
    cbn [push addBonus Acc.bonusValue]; rewrite !Qdiv100.
  - nra.
  - assert (0 <= x * cpp) by nra. nra.
Qed.

(** X8. With no negative rate, multiplier, cap or amount in play, adding an
    offer to the list never lowers [bonusValue] or [dollars]. *)
Theorem valueFor_offer_never_lowers
    (card : Card.t) (p : Params.t) (before after : list Offer.t) (off : Offer.t) :
  cardNonneg card -> overridesNonneg p -> offerNonneg off ->
  0 <= Params.amountCents p ->
  Valuation.bonusValue (valueFor card p (before ++ after))
    <= Valuation.bonusValue (valueFor card p (before ++ off :: after))
  /\ Valuation.dollars (valueFor card p (before ++ after))
    <= Valuation.dollars (valueFor card p (before ++ off :: after)).
Proof.
  intros Hcard Hover Hoff Ha.
  pose proof (resolveCpp_nonneg card p Hcard Hover) as Hcpp.
  unfold valueFor. cbn [Valuation.bonusValue Valuation.dollars].
  set (cpp := resolveCpp card (Params.programOverrides p)) in *.
  rewrite !fold_offerStep_baseValue, !fold_offerStep_bonus_sum.
  rewrite !map_app, !Qsum_app. cbn [map Qsum foldr].
  fold (Qsum (map (fun off => Acc.bonusValue (offerStep card p cpp freshAcc off)) after)).
  pose proof (offerStep_grows card p cpp freshAcc off Hoff Hcpp Ha) as Hgrow.
  cbn [freshAcc Acc.bonusValue] in Hgrow. split; lra.
Qed.

(** ** Offers that add nothing, and offers that add a fixed amount *)

(** X9. An offer outside its window, or limited to categories that do not
    include the purchase's, is skipped before the enrollment gate: the
    valuation, notes included, is the one of the list without it. *)
Theorem offer_outside_window_or_category_ignored
    (off : Offer.t) (card : Card.t) (p : Params.t) (before after : list Offer.t) :
  offerActiveNow off (Params.nowISO p) = false
  \/ offerMatchesCategory off (Params.categoryId p) = false ->
  valueFor card p (before ++ off :: after) = valueFor card p (before ++ after).
Proof.
  intros Hout. apply valueFor_skip. intros cpp acc. unfold offerStep.
  destruct Hout as [-> | Hcat]; [reflexivity|]. rewrite Hcat.
  destruct (offerActiveNow _ _), (offerAppliesToCard _ _); reflexivity.
Qed.

(** X10. An offer whose [offer_type] is none of "statement_credit",
    "percent_back" and "points_multiplier" adds no value and no note, unless
    the enrollment gate stops it first (then the enrollment note is due). *)
Theorem offer_of_unknown_type_ignored
    (off : Offer.t) (card : Card.t) (p : Params.t) (before after : list Offer.t) :
  Offer.offer_type off <> "statement_credit"%string ->
  Offer.offer_type off <> "percent_back"%string ->
  Offer.offer_type off <> "points_multiplier"%string ->
  gateCloses p off = false ->
  valueFor card p (before ++ off :: after) = valueFor card p (before ++ after).
Proof.
  intros H1%String.eqb_neq H2%String.eqb_neq H3%String.eqb_neq Hgate.
  apply valueFor_skip. intros cpp acc. unfold offerStep.
  unfold gateCloses in Hgate. rewrite Hgate, H1, H2, H3.
  destruct (offerActiveNow _ _), (offerAppliesToCard _ _), (offerMatchesCategory _ _);
    reflexivity.
Qed.

(** X11. A statement credit whose minimum spend the amount does not reach,
    and which the enrollment gate does not stop, adds no value and no note.
    (The gate comes before the minimum spend: a credit that requires an
    enrollment the caller does not hold is skipped there, with its note.) *)
Theorem statement_credit_below_min_spend_ignored
    (off : Offer.t) (card : Card.t) (p : Params.t) (before after : list Offer.t) :
  Offer.offer_type off = "statement_credit"%string ->
  Params.amountCents p < numberOr (Offer.min_spend_cents off) 0 ->
  gateCloses p off = false ->
  valueFor card p (before ++ off :: after) = valueFor card p (before ++ after).
Proof.
  intros Htype Hmin Hgate.
  apply valueFor_skip. intros cpp acc. unfold offerStep.
  unfold gateCloses in Hgate. rewrite Hgate, Htype. cbn [String.eqb Ascii.eqb Bool.eqb].
  assert (Qle_bool (numberOr (Offer.min_spend_cents off) 0) (Params.amountCents p) = false)
    as ->.
  { apply not_true_iff_false. rewrite Qle_bool_iff. lra. }
  destruct (offerActiveNow _ _), (offerAppliesToCard _ _), (offerMatchesCategory _ _);
    reflexivity.
Qed.

(** X12. A statement credit with a non-zero [fixed_amount], once the filters
    and the minimum spend are passed, adds exactly that many cents as dollars
    and the note "$X.XX statement credit", whatever percent and caps the offer
    also carries. *)
Theorem statement_credit_fixed_amount_wins
    (card : Card.t) (p : Params.t) (cpp : Q) (acc : Acc.t) (off : Offer.t) (f : Q) :
  passesFilters card p off = true ->
  Offer.offer_type off = "statement_credit"%string ->
  numberOr (Offer.min_spend_cents off) 0 <= Params.amountCents p ->
  nonZero (Offer.value off ≫= OfferValue.fixed_amount) = Some f ->
  Acc.bonusValue (offerStep card p cpp acc off) = Acc.bonusValue acc + f / 100
  /\ Acc.notes (offerStep card p cpp acc off)
     = Acc.notes acc ++ [money (f / 100) +:+ " statement credit"].
Proof.
  unfold passesFilters, reachesGate, gateCloses, offerStep.
  intros [[[-> ->]%andb_true_iff ->]%andb_true_iff ->%negb_true_iff]%andb_true_iff.
  intros -> Hmin%Qle_bool_iff Hfixed. cbn [negb String.eqb Ascii.eqb Bool.eqb].
  rewrite Hmin. unfold nonZero in Hfixed.
  destruct (Offer.value off ≫= OfferValue.fixed_amount) as [f'|]; [|discriminate].
  unfold truthy. destruct (Qeq_bool f' 0); [discriminate|].
  injection Hfixed as ->. split; reflexivity.
Qed.

(** X13. A [points_multiplier] offer that passes the filters but carries no
    (non-zero) multiplier adds nothing and still writes its note, "+0x
    points". *)
Theorem points_multiplier_without_multiplier
    (card : Card.t) (p : Params.t) (cpp : Q) (acc : Acc.t) (off : Offer.t) :
  passesFilters card p off = true ->
  Offer.offer_type off = "points_multiplier"%string ->
  nonZero (Offer.value off ≫= OfferValue.points_multiplier) = None ->
  Acc.bonusValue (offerStep card p cpp acc off) == Acc.bonusValue acc
  /\ Acc.notes (offerStep card p cpp acc off)
     = Acc.notes acc ++ ["+" +:+ numberToString 0 +:+ "x points"].
Proof.
  unfold passesFilters, reachesGate, gateCloses, offerStep.
  intros [[[-> ->]%andb_true_iff ->]%andb_true_iff ->%negb_true_iff]%andb_true_iff.
  intros -> Hnone. cbn [negb String.eqb Ascii.eqb Bool.eqb].
  assert (numberOr (Offer.value off ≫= OfferValue.points_multiplier) 0 = 0) as ->.
  { unfold nonZero in Hnone. unfold numberOr, truthy.
    destruct (Offer.value off ≫= OfferValue.points_multiplier) as [x|]; [|reflexivity].
    destruct (Qeq_bool x 0); [reflexivity|discriminate]. }
  destruct (String.eqb (cardType card) "cashback");
    cbn [push addBonus Acc.bonusValue Acc.notes]; (split; [|reflexivity]).
  - rewrite !Qdiv100. ring.
  - rewrite !Qdiv100. ring.
Qed.

(** ** Rotating windows in the valuation *)

Lemma baseEarnings_active (card : Card.t) (p : Params.t) (cpp : Q) (w : Window.t) :
  String.eqb (cardType card) "cashback" = true ->
  activeRotatingWindow card (Params.categoryId p) (Params.nowISO p) (Params.userRotating p)
  = Some w ->
  Window.active w = true ->
  let s := applyCapSplitPercent (Params.amountCents p) (Window.boostRatePercent w)
             (default (staticMultiplier card (Params.categoryId p)) (Window.afterRatePercent w))
             (Window.remainingCapCents w) in
  Acc.baseValue (baseEarnings card p cpp) = 0 + CapSplit.baseVal s
  /\ Acc.bonusValue (baseEarnings card p cpp) = 0 + CapSplit.boostVal s.
Proof.
  intros Hc Hwin Hactive. unfold baseEarnings. rewrite Hc, Hwin, Hactive.
  split; reflexivity.
Qed.

(** X14. On a cashback card with an active rotating window, an amount that
    fits in the remaining cap is boosted whole: the base value is zero and
    the boosted portion is worth amount x rate/100. *)
Theorem rotating_amount_within_cap
    (card : Card.t) (p : Params.t) (offers : list Offer.t) (w : Window.t) :
  Card.type card = Some "cashback"%string ->
  activeRotatingWindow card (Params.categoryId p) (Params.nowISO p) (Params.userRotating p)
  = Some w ->
  Window.active w = true ->
  Params.amountCents p <= Window.remainingCapCents w ->
  Valuation.baseValue (valueFor card p offers) == 0
  /\ Valuation.bonusValue (valueFor card p [])
     == Params.amountCents p / 100 * (Window.boostRatePercent w / 100).
Proof.
  intros Hc%cardType_cashback Hwin Hactive Hfit.
  unfold valueFor. cbn [fold_left Valuation.baseValue Valuation.bonusValue].
  rewrite fold_offerStep_baseValue.
  destruct (baseEarnings_active card p (resolveCpp card (Params.programOverrides p)) w
              Hc Hwin Hactive) as [-> ->].
  cbn [applyCapSplitPercent CapSplit.baseVal CapSplit.boostVal].
  assert (Qmin (Params.amountCents p) (Qmax 0 (Window.remainingCapCents w))
          == Params.amountCents p) as ->.
  { apply Q.min_l. pose proof (Q.le_max_r 0 (Window.remainingCapCents w)). lra. }
  rewrite !Qdiv100. split; ring.
Qed.

(** X15. On a cashback card with an active rotating window whose remaining
    cap is used up, the window boosts nothing.  Whatever the offers, a
    non-negative amount earns as [baseValue] the window's after-rate, or the
    card's static multiplier when the rule has none, and [bonusValue] is what
    the same card without rotating rules gets from these offers; with no
    offers it is zero. *)
Theorem rotating_cap_exhausted
    (card : Card.t) (p : Params.t) (offers : list Offer.t) (w : Window.t) :
  Card.type card = Some "cashback"%string ->
  activeRotatingWindow card (Params.categoryId p) (Params.nowISO p) (Params.userRotating p)
  = Some w ->
  Window.active w = true ->
  Window.remainingCapCents w <= 0 ->
  0 <= Params.amountCents p ->
  Valuation.baseValue (valueFor card p offers)
  == Params.amountCents p / 100
     * (default (staticMultiplier card (Params.categoryId p)) (Window.afterRatePercent w)
        / 100)
  /\ Valuation.bonusValue (valueFor card p offers)
     == Valuation.bonusValue (valueFor (withRotatingRules card None) p offers)
  /\ Valuation.bonusValue (valueFor card p []) == 0.
Proof.
  intros Hc%cardType_cashback Hwin Hactive Hcap Ha.
  assert (Qmin (Params.amountCents p) (Qmax 0 (Window.remainingCapCents w)) == 0) as Hmin.
  { rewrite (Q.max_l 0 (Window.remainingCapCents w)) by exact Hcap.
    apply Q.min_r. exact Ha. }
  unfold valueFor.
  set (cpp := resolveCpp card (Params.programOverrides p)).
  change (resolveCpp (withRotatingRules card None) (Params.programOverrides p)) with cpp.
  cbn [fold_left Valuation.baseValue Valuation.bonusValue].
  rewrite (fold_left_pointwise (offerStep (withRotatingRules card None) p cpp)
             (offerStep card p cpp)) by reflexivity.
  rewrite fold_offerStep_baseValue, !fold_offerStep_bonus_sum.
  destruct (baseEarnings_active card p cpp w Hc Hwin Hactive) as [-> ->].
  assert (Acc.bonusValue (baseEarnings (withRotatingRules card None) p cpp) = 0) as ->.
  { unfold baseEarnings.
    change (cardType (withRotatingRules card None)) with (cardType card).
    rewrite Hc. reflexivity. }
  cbn [applyCapSplitPercent CapSplit.baseVal CapSplit.boostVal].
  rewrite Hmin, !Qdiv100. repeat split; ring.
Qed.

Lemma offerStep_withFirstNote (card : Card.t) (p : Params.t) (cpp : Q) (acc : Acc.t)
    (off : Offer.t) (note : string) :
  note <> ENROLL_NOTE ->
  offerStep card p cpp (withFirstNote note acc) off
  = withFirstNote note (offerStep card p cpp acc off).
Proof.
  intros Hne. unfold offerStep, percentBack.
  assert (bool_decide (ENROLL_NOTE ∈ Acc.notes (withFirstNote note acc))
          = bool_decide (ENROLL_NOTE ∈ Acc.notes acc)) as ->.
  { apply bool_decide_ext. cbn [withFirstNote Acc.notes].
    rewrite elem_of_cons. split; [intros [E|Hin]|intros Hin].
    - exfalso. apply Hne. symmetry. exact E.
    - exact Hin.
    - right. exact Hin. }
  repeat match goal with
         | |- context [if ?b then _ else _] => destruct b
         | |- context [match ?o with Some _ => _ | None => _ end] => destruct o
         end; reflexivity.
Qed.

Lemma fold_offerStep_withFirstNote (card : Card.t) (p : Params.t) (cpp : Q)
    (offers : list Offer.t) (acc : Acc.t) (note : string) :
  note <> ENROLL_NOTE ->
  fold_left (offerStep card p cpp) offers (withFirstNote note acc)
  = withFirstNote note (fold_left (offerStep card p cpp) offers acc).
Proof.
  intros Hne. revert acc. induction offers as [|off offers IH]; intros acc; [reflexivity|].
  cbn [fold_left]. rewrite offerStep_withFirstNote by exact Hne. apply IH.
Qed.

(** X16. A rotating window that is not activated changes nothing but the
    notes: the card is valued as if it had no rotating rule, and the note
    "Activation required for rotating bonus" comes first. *)
Theorem rotating_not_activated_same_as_no_rule
    (card : Card.t) (p : Params.t) (offers : list Offer.t) (w : Window.t) :
  Card.type card = Some "cashback"%string ->
  activeRotatingWindow card (Params.categoryId p) (Params.nowISO p) (Params.userRotating p)
  = Some w ->
  Window.active w = false ->
  let plain := valueFor (withRotatingRules card None) p offers in
  Valuation.dollars (valueFor card p offers) = Valuation.dollars plain
  /\ Valuation.baseValue (valueFor card p offers) = Valuation.baseValue plain
  /\ Valuation.bonusValue (valueFor card p offers) = Valuation.bonusValue plain
  /\ Valuation.notes (valueFor card p offers)
     = "Activation required for rotating bonus"%string :: Valuation.notes plain.
Proof.
  intros Hc%cardType_cashback Hwin Hactive plain. unfold plain, valueFor.
  set (cpp := resolveCpp card (Params.programOverrides p)).
  change (resolveCpp (withRotatingRules card None) (Params.programOverrides p)) with cpp.
  assert (baseEarnings card p cpp
          = withFirstNote "Activation required for rotating bonus"
              (baseEarnings (withRotatingRules card None) p cpp)) as ->.
  { unfold baseEarnings.
    change (cardType (withRotatingRules card None)) with (cardType card).
    rewrite Hc, Hwin, Hactive. reflexivity. }
  rewrite (fold_left_pointwise (offerStep card p cpp)
             (offerStep (withRotatingRules card None) p cpp)) by reflexivity.
  rewrite fold_offerStep_withFirstNote by discriminate.
  repeat split.
Qed.

End MoreValuation.

(** ** Rotating window resolver, continued *)

Lemma scanRules_Some (rules : list Rule.t) (cardId categoryId nowISO : string)
    (userRotating : gmap string UserState.t) (w : Window.t) :
  scanRules rules cardId categoryId nowISO userRotating = Some w ->
  exists before r after,
    rules = before ++ r :: after
    /\ Forall (fun r' => ruleMatches r' categoryId nowISO = false) before
    /\ ruleMatches r categoryId nowISO = true
    /\ w = windowOf r (default UserState.empty (userRotating !! cardId)).
Proof.
  induction rules as [|r rules IH]; [discriminate|].
  cbn [scanRules]. destruct (ruleMatches r categoryId nowISO) eqn:Hm.
  - unfold ruleMatches in Hm. apply andb_true_iff in Hm as [Hw Hc].
    rewrite Hw, Hc. cbn [negb]. intros [= <-].
    exists [], r, rules. repeat split; [constructor|].
    unfold ruleMatches. rewrite Hw, Hc. reflexivity.
  - assert (scanRules (r :: rules) cardId categoryId nowISO userRotating
            = scanRules rules cardId categoryId nowISO userRotating) as Hskip.
    { apply (scanRules_skip cardId categoryId nowISO userRotating [r] rules).
      constructor; [exact Hm|constructor]. }
    cbn [scanRules] in Hskip. rewrite Hskip.
    intros (before & r' & after & -> & Hbefore & Hr' & ->)%IH.
    exists (r :: before), r', after. repeat split; [|exact Hr'].
    constructor; assumption.
Qed.

Lemma activeRotatingWindow_Some
    (card : Card.t) (categoryId nowISO : string) (userRotating : gmap string UserState.t)
    (w : Window.t) :
  activeRotatingWindow card categoryId nowISO userRotating = Some w ->
  exists before r after,
    Card.rotating_rules card = Some (before ++ r :: after)
    /\ Forall (fun r' => ruleMatches r' categoryId nowISO = false) before
    /\ ruleMatches r categoryId nowISO = true
    /\ w = windowOf r (default UserState.empty (userRotating !! Card.id card)).
Proof.
  unfold activeRotatingWindow.
  destruct (Card.rotating_rules card) as [rules|]; [|discriminate].
  destruct (length rules =? 0)%nat; [discriminate|].
  intros (before & r & after & -> & ? & ? & ->)%scanRules_Some.
  exists before, r, after. repeat split; assumption.
Qed.

(** X17. Every answer of the resolver is accounted for: a window it returns
    is the descriptor of a rule that matches and has no matching rule before
    it, and it returns nothing only when the card has no rule that matches (or
    no array of rules). *)
Theorem activeRotatingWindow_complete
    (card : Card.t) (categoryId nowISO : string) (userRotating : gmap string UserState.t) :
  match activeRotatingWindow card categoryId nowISO userRotating with
  | Some w =>
      exists before r after,
        Card.rotating_rules card = Some (before ++ r :: after)
        /\ Forall (fun r' => ruleMatches r' categoryId nowISO = false) before
        /\ ruleMatches r categoryId nowISO = true
        /\ w = windowOf r (default UserState.empty (userRotating !! Card.id card))
  | None =>
      forall rules, Card.rotating_rules card = Some rules ->
                    Forall (fun r => ruleMatches r categoryId nowISO = false) rules
  end.
Proof.
  destruct (activeRotatingWindow card categoryId nowISO userRotating) as [w|] eqn:Hwin.
  { apply activeRotatingWindow_Some, Hwin. }
  revert Hwin. unfold activeRotatingWindow.
  destruct (Card.rotating_rules card) as [rules|]; [|discriminate].
  destruct (length rules =? 0)%nat eqn:Hlen.
  { intros _ ? [= <-]. destruct rules; [constructor|discriminate]. }
  intros Hscan.
  - intros ? [= <-]. clear Hlen.
    induction rules as [|r rules IH]; [constructor|].
    destruct (ruleMatches r categoryId nowISO) eqn:Hm.
    + rewrite (scanRules_stop _ _ _ _ r rules Hm) in Hscan. discriminate.
    + constructor; [exact Hm|]. apply IH.
      rewrite <- Hscan. symmetry.
      apply (scanRules_skip _ _ _ _ [r] rules). constructor; [exact Hm|constructor].
Qed.

(** X18. For a card the caller gives no user state for, a returned window is
    active exactly when its rule requires no activation, and its remaining
    cap is the rule's [cap_cents], taken as 0 when absent or negative. *)
Theorem activeRotatingWindow_without_user_state
    (card : Card.t) (categoryId nowISO : string) (userRotating : gmap string UserState.t)
    (w : Window.t) :
  userRotating !! Card.id card = None ->
  activeRotatingWindow card categoryId nowISO userRotating = Some w ->
  exists r rules,
    Card.rotating_rules card = Some rules /\ In r rules
    /\ ruleMatches r categoryId nowISO = true
    /\ Window.active w = negb (Rule.activation_required r)
    /\ Window.remainingCapCents w == Qmax 0 (default 0 (Rule.cap_cents r)).
Proof.
  intros Hnone (before & r & after & Hrules & _ & Hm & ->)%activeRotatingWindow_Some.
  rewrite Hnone.
  exists r, (before ++ r :: after). split; [exact Hrules|].
  split; [apply in_elt|]. split; [exact Hm|].
  cbn [windowOf default from_option UserState.empty UserState.activated
         UserState.remainingCapCents Window.active Window.remainingCapCents].
  split.
  - destruct (Rule.activation_required r); reflexivity.
  - destruct (Rule.cap_cents r) as [c|]; cbn [default from_option].
    + apply Q.max_r, Q.le_max_l.
    + reflexivity.
Qed.

(** ** Window bounds and the instants the caller passes *)

Lemma ascii_compare_refl (c : ascii) : Ascii.compare c c = Eq.
Proof. unfold Ascii.compare. apply N.compare_refl. Qed.

Lemma string_compare_app (prefix a b : string) :
  String.compare (prefix +:+ a) (prefix +:+ b) = String.compare a b.
Proof.
  induction prefix as [|c prefix IH]; [reflexivity|].
  simpl. rewrite ascii_compare_refl. exact IH.
Qed.

(** X19. A rule's window opens one second late for the caller: an instant in
    the first second of the start day, written with a fraction of a second as
    [toISOString] writes every instant, sorts before the start bound
    "<day>T00:00:00Z" and is outside the window. *)
Theorem rule_window_misses_first_second (r : Rule.t) (day fraction : string) :
  Rule.start r = Some day ->
  day <> ""%string ->
  ruleWindowContains r (day +:+ "T00:00:00." +:+ fraction) = false.
Proof.
  intros Hstart Hday. unfold ruleWindowContains. rewrite Hstart.
  assert (truthyStr (Some day) = true) as ->
    by (cbn; apply negb_true_iff, String.eqb_neq, Hday).
  unfold isWithin, toISOStartOfDay. cbn [fmap option_fmap option_map truthyStr from_option].
  assert (String.ltb (day +:+ "T00:00:00." +:+ fraction) (day +:+ "T00:00:00Z") = true) as ->.
  { unfold String.ltb. rewrite string_compare_app. reflexivity. }
  assert (String.eqb (day +:+ "T00:00:00Z") "" = false) as ->
    by (destruct day; [contradiction|reflexivity]).
  reflexivity.
Qed.

(** ** The top of a ranking *)

Lemma rankCards_rankedBefore {fmt : NumberFormat}
    (cards : list Card.t) (params : Params.t) (offersByCard : gmap string (list Offer.t)) :
  StronglySorted rankedBefore (rankCards cards params offersByCard).
Proof.
  eapply StronglySorted_weaken; [|apply (sortBy_sorted compareFn)].
  - intros a b. apply compareFn_rankedBefore.
  - exact compareFn_antisym.
  - exact compareFn_trans.
Qed.

(** X20. The first result of a ranking is a best card: no card of the wallet
    is valued at more dollars; and a wallet with a card has a first result. *)
Theorem rankCards_head_is_best {fmt : NumberFormat}
    (cards : list Card.t) (params : Params.t) (offersByCard : gmap string (list Offer.t))
    (card : Card.t) :
  In card cards ->
  exists top rest,
    rankCards cards params offersByCard = top :: rest
    /\ Valuation.dollars (valueFor card params (default [] (offersByCard !! Card.id card)))
       <= Ranked.dollars top.
Proof.
  intros Hin.
  set (mine := rankedOf card (valueFor card params (default [] (offersByCard !! Card.id card)))).
  assert (In mine (rankCards cards params offersByCard)) as Hmine.
  { apply (Permutation_in _ (Permutation_sym (sortBy_Permutation compareFn _))).
    unfold valuations. apply (in_map (fun c => rankedOf c _) cards card Hin). }
  pose proof (rankCards_rankedBefore cards params offersByCard) as Hsorted.
  change (Valuation.dollars (valueFor card params (default [] (offersByCard !! Card.id card))))
    with (Ranked.dollars mine).
  clearbody mine.
  destruct (rankCards cards params offersByCard) as [|top rest]; [destruct Hmine|].
  exists top, rest. split; [reflexivity|].
  apply StronglySorted_inv in Hsorted as [_ Hall].
  destruct Hmine as [<-|Hrest]; [apply Qle_refl|].
  rewrite List.Forall_forall in Hall. destruct (Hall mine Hrest) as [Hlt|[Heq _]].
  - apply Qlt_le_weak. exact Hlt.
  - rewrite Heq. apply Qle_refl.
Qed.

(** * Properties of the caller *)

(** ** Offer lists *)

Lemma string_leb_ltb (s1 s2 : string) : String.leb s1 s2 = negb (String.ltb s2 s1).
Proof. rewrite string_ltb_leb. symmetry. apply negb_involutive. Qed.

(** X21. The application's liveness test and the engine's window filter are
    the same test: at one instant, an offer the application keeps is never
    dropped by [offerActiveNow], and conversely. *)
Theorem offerIsLive_agrees_with_engine (o : Offer.t) (now : string) :
  offerIsLive o now = offerActiveNow o now.
Proof.
  unfold offerIsLive, offerActiveNow, isWithin. rewrite !orNull_check.
  unfold boundHolds, truthyStr.
  destruct (Offer.start_at o) as [s|], (Offer.end_at o) as [e|];
    cbn [from_option negb orb andb];
    rewrite ?string_leb_ltb;
    repeat match goal with
           | |- context [String.eqb ?a ""] => destruct (String.eqb a "")
           | |- context [String.ltb ?a ?b] => destruct (String.ltb a b)
           end; reflexivity.
Qed.

Lemma includes_In (l : list string) (x : string) : includes l x = true <-> In x l.
Proof.
  unfold includes. rewrite existsb_exists. split.
  - intros (y & Hin & ->%String.eqb_eq). exact Hin.
  - intros Hin. exists x. split; [exact Hin|apply String.eqb_refl].
Qed.

(** X22. For an offer scoped to a non-empty array of card ids, the browser's
    eligibility test over the ids of a wallet says exactly whether the engine
    applies the offer to some card of that wallet. *)
Theorem offerIsEligible_listed_scope
    (offer : Offer.t) (cards : list Card.t) (id : JsVal) (ids : list JsVal) :
  Offer.card_scope offer = JsArray (id :: ids) ->
  offerIsEligible offer (map Card.id cards) = existsb (offerAppliesToCard offer) cards.
Proof.
  intros Hscope. unfold offerIsEligible, offerAppliesToCard. rewrite Hscope.
  cbn [length Nat.eqb strictEqString].
  set (scope := id :: ids). apply eq_true_iff_eq.
  rewrite !existsb_exists. split.
  - intros (v & Hv & Hown). destruct v as [| | | |s| |]; try discriminate.
    apply includes_In, in_map_iff in Hown as (card & <- & Hcard).
    exists card. split; [exact Hcard|].
    unfold includesString. apply existsb_exists. exists (JsString (Card.id card)).
    split; [exact Hv|]. cbn. apply String.eqb_refl.
  - intros (card & Hcard & Happ). unfold includesString in Happ.
    apply existsb_exists in Happ as (v & Hv & Heq). exists v. split; [exact Hv|].
    destruct v as [| | | |s| |]; try discriminate.
    cbn in Heq. apply String.eqb_eq in Heq as ->.
    apply includes_In, in_map, Hcard.
Qed.

(** X23. An offer whose [card_scope] is an empty array, or neither an array
    nor the string "all", is eligible for every wallet in the browser and is
    applied to no card by the engine. *)
Theorem offerIsEligible_but_never_applied
    (offer : Offer.t) (ownedIds : list string) (card : Card.t) :
  Offer.card_scope offer = JsArray []
  \/ (isArray (Offer.card_scope offer) = false /\ Offer.card_scope offer <> JsString "all") ->
  offerIsEligible offer ownedIds = true /\ offerAppliesToCard offer card = false.
Proof.
  intros [Hempty|[Harr Hall]].
  - unfold offerIsEligible, offerAppliesToCard. rewrite Hempty. split; reflexivity.
  - split; [|apply offerAppliesToCard_other_scope; assumption].
    unfold offerIsEligible. destruct (Offer.card_scope offer); try reflexivity.
    discriminate.
Qed.

(** ** Enrollment *)

Lemma setAdd_In (s : list string) (x y : string) : In y (setAdd s x) <-> y = x \/ In y s.
Proof.
  unfold setAdd. destruct (includes s x) eqn:Hinc.
  - apply includes_In in Hinc. split; [tauto|]. intros [->|?]; assumption.
  - rewrite in_app_iff. cbn. split; [intros [?|[->|[]]]; tauto|intros [->|?]; tauto].
Qed.

Lemma NoDup_snoc (s : list string) (x : string) :
  List.NoDup s -> ~ In x s -> List.NoDup (s ++ [x]).
Proof.
  induction 1 as [|y s Hy Hs IH]; intros Hx; cbn [app].
  - constructor; [intros []|constructor].
  - constructor.
    + rewrite in_app_iff. cbn. intros [Hin|[->|[]]]; [contradiction|].
      apply Hx. left. reflexivity.
    + apply IH. intros Hin. apply Hx. right. exact Hin.
Qed.

Lemma setAdd_NoDup (s : list string) (x : string) : List.NoDup s -> List.NoDup (setAdd s x).
Proof.
  intros Hs. unfold setAdd. destruct (includes s x) eqn:Hinc; [exact Hs|].
  apply NoDup_snoc; [exact Hs|]. rewrite <- includes_In, Hinc. discriminate.
Qed.

Lemma setFromArray_spec (l : list string) :
  List.NoDup (setFromArray l) /\ forall y, In y (setFromArray l) <-> In y l.
Proof.
  unfold setFromArray.
  assert (forall acc, List.NoDup acc ->
            List.NoDup (fold_left setAdd l acc)
            /\ forall y, In y (fold_left setAdd l acc) <-> In y acc \/ In y l) as Hgen.
  { induction l as [|x l IH]; intros acc Hacc; cbn [fold_left].
    - split; [exact Hacc|]. intros y. cbn. tauto.
    - destruct (IH (setAdd acc x) (setAdd_NoDup acc x Hacc)) as [Hnd Hin].
      split; [exact Hnd|]. intros y. rewrite Hin, setAdd_In. cbn. split.
      + intros [[->|?]|?]; [right; left; reflexivity|left; assumption|right; right; assumption].
      + intros [?|[->|?]]; [left; right; assumption|left; left; reflexivity|right; assumption]. }
  destruct (Hgen [] (List.NoDup_nil _)) as [Hnd Hin]. split; [exact Hnd|].
  intros y. rewrite Hin. cbn. tauto.
Qed.

Lemma setDelete_In (s : list string) (x y : string) :
  In y (setDelete s x) <-> In y s /\ y <> x.
Proof.
  unfold setDelete. rewrite filter_In, negb_true_iff, String.eqb_neq. reflexivity.
Qed.

Lemma toggleEnrollment_In (prev : list string) (offerId : string) (on : bool) (y : string) :
  In y (toggleEnrollment prev offerId on)
  <-> if on then y = offerId \/ In y prev else In y prev /\ y <> offerId.
Proof.
  unfold toggleEnrollment. destruct (setFromArray_spec prev) as [_ Hin].
  destruct on; [rewrite setAdd_In, Hin|rewrite setDelete_In, Hin]; reflexivity.
Qed.

(** X24. [toggleEnrollment] keeps the stored array free of repetitions,
    whatever was stored before; switching an offer on puts its id among the
    ids stored before, switching it off removes exactly that id. *)
Theorem toggleEnrollment_spec (prev : list string) (offerId : string) (on : bool) :
  List.NoDup (toggleEnrollment prev offerId on)
  /\ forall y, In y (toggleEnrollment prev offerId on)
               <-> if on then y = offerId \/ In y prev else In y prev /\ y <> offerId.
Proof.
  split; [|apply toggleEnrollment_In].
  unfold toggleEnrollment. destruct (setFromArray_spec prev) as [Hnd _].
  destruct on; [apply setAdd_NoDup, Hnd|apply List.NoDup_filter, Hnd].
Qed.

(** X25. Enrollment reaches the engine: once an offer is switched on, the
    enrollment gate lets it through in the next call; once it is switched
    off, the gate stops it if it requires enrollment. *)
Theorem toggleEnrollment_opens_gate
    (prev : list string) (p : Params.t) (off : Offer.t) :
  gateCloses (withEnrolled p (enrolledSet (toggleEnrollment prev (Offer.id off) true))) off
  = false
  /\ gateCloses (withEnrolled p (enrolledSet (toggleEnrollment prev (Offer.id off) false))) off
     = Offer.enrollment_required off.
Proof.
  unfold gateCloses, enrolledSet. cbn [withEnrolled Params.userEnrolledOfferIds].
  split.
  - rewrite bool_decide_eq_true_2; [apply andb_false_r|].
    apply elem_of_list_to_set, list_elem_of_In, toggleEnrollment_In. left. reflexivity.
  - rewrite bool_decide_eq_false_2; [apply andb_true_r|].
    rewrite elem_of_list_to_set, list_elem_of_In, toggleEnrollment_In.
    intros [_ Hne]. congruence.
Qed.

(** ** The category of a merchant *)

Lemma countCategories_flat (offers : list Offer.t) (acc : list (string * Q)) :
  fold_left (fun counts o => fold_left bump (categoriesOf o) counts) offers acc
  = fold_left bump (concat (map categoriesOf offers)) acc.
Proof.
  revert acc. induction offers as [|o offers IH]; intros acc; [reflexivity|].
  cbn [fold_left map concat]. rewrite fold_left_app. apply IH.
Qed.

Lemma bump_keys (counts : list (string * Q)) (c k : string) :
  In k (map fst (bump counts c)) <-> k = c \/ In k (map fst counts).
Proof.
  induction counts as [|[k' v] counts IH]; cbn [bump].
  - cbn. intuition congruence.
  - destruct (String.eqb_spec k' c) as [->|Hne]; cbn [map fst In].
    + intuition congruence.
    + rewrite IH. tauto.
Qed.

Lemma bump_NoDup (counts : list (string * Q)) (c : string) :
  List.NoDup (map fst counts) -> List.NoDup (map fst (bump counts c)).
Proof.
  induction counts as [|[k v] counts IH]; cbn [bump map fst]; intros Hnd.
  - constructor; [intros []|constructor].
  - apply List.NoDup_cons_iff in Hnd as [Hk Hnd].
    destruct (String.eqb_spec k c) as [->|Hne]; cbn [map fst].
    + constructor; assumption.
    + constructor; [|apply IH, Hnd]. rewrite bump_keys. intros [->|Hin]; contradiction.
Qed.

Lemma countOf_bump (counts : list (string * Q)) (c c' : string) :
  countOf (bump counts c) c' == countOf counts c' + (if String.eqb c c' then 1 else 0).
Proof.
  unfold countOf. induction counts as [|[k v] counts IH]; cbn [bump find fst snd].
  - destruct (String.eqb c c'); cbn [snd]; ring.
  - destruct (String.eqb_spec k c) as [->|Hne]; cbn [find fst snd].
    + destruct (String.eqb c c'); cbn [snd]; [|ring].
      destruct (truthy v) eqn:Hv; [ring|].
      unfold truthy in Hv. apply negb_false_iff, Qeq_bool_iff in Hv. rewrite Hv. ring.
    + destruct (String.eqb_spec k c') as [->|Hne']; cbn [snd].
      * destruct (String.eqb_spec c c') as [->|_]; [contradiction|ring].
      * exact IH.
Qed.

Lemma fold_bump_spec (l : list string) (counts : list (string * Q)) :
  List.NoDup (map fst counts) ->
  List.NoDup (map fst (fold_left bump l counts))
  /\ (forall k, In k (map fst (fold_left bump l counts)) <-> In k (map fst counts) \/ In k l)
  /\ (forall c, countOf (fold_left bump l counts) c
                == countOf counts c + inject_Z (Z.of_nat (count_occ String.string_dec l c))).
Proof.
  revert counts. induction l as [|x l IH]; intros counts Hnd; cbn [fold_left].
  - split; [exact Hnd|]. split; [intros k; cbn; tauto|]. intros c. cbn. ring.
  - destruct (IH (bump counts x) (bump_NoDup counts x Hnd)) as (Hnd' & Hkeys & Hcount).
    split; [exact Hnd'|]. split.
    + intros k. rewrite Hkeys, bump_keys. cbn. intuition congruence.
    + intros c. rewrite Hcount, countOf_bump. cbn [count_occ].
      destruct (String.string_dec x c) as [->|Hne].
      * rewrite String.eqb_refl, Nat2Z.inj_succ, <- Z.add_1_r, inject_Z_plus. ring.
      * apply String.eqb_neq in Hne. rewrite Hne. ring.
Qed.

Lemma countOf_In (counts : list (string * Q)) (k : string) (v : Q) :
  List.NoDup (map fst counts) -> In (k, v) counts -> countOf counts k = v.
Proof.
  unfold countOf. induction counts as [|[k' v'] counts IH]; [intros _ []|].
  cbn [map fst find]. intros [Hk Hnd]%List.NoDup_cons_iff [[= -> ->]|Hin].
  - rewrite String.eqb_refl. reflexivity.
  - destruct (String.eqb_spec k' k) as [->|_]; [|apply IH; assumption].
    exfalso. apply Hk. apply (in_map fst) in Hin. exact Hin.
Qed.

(** X26. When the offers of a merchant name any category, and every name is
    a plain key (not the name of a member of [Object.prototype], such as
    "constructor" or "toString", and not written with digits only), the
    category picked is one they name and none is named more often. *)
Theorem pickCategoryFromOffers_most_frequent
    (offersForMerchant : list Offer.t) (merchantId : string) :
  allCategories offersForMerchant <> [] ->
  Forall (fun c => plainKey c = true) (allCategories offersForMerchant) ->
  exists c,
    pickCategoryFromOffers offersForMerchant merchantId = Some (PickedCategory c)
    /\ In c (allCategories offersForMerchant)
    /\ forall c', (occurrences offersForMerchant c' <= occurrences offersForMerchant c)%nat.
Proof.
  intros Hsome Hplain. unfold pickCategoryFromOffers, countCategories, occurrences.
  rewrite (proj2 (forallb_forall plainKey (allCategories offersForMerchant)))
    by (apply List.Forall_forall, Hplain).
  rewrite countCategories_flat. fold (allCategories offersForMerchant).
  set (flat := allCategories offersForMerchant) in *.
  destruct (fold_bump_spec flat [] (List.NoDup_nil _)) as (Hnd & Hkeys & Hcount).
  set (counts := fold_left bump flat []) in *.
  set (cmp := fun a b : string * Q => snd b - snd a).
  pose proof (sortBy_Permutation cmp counts) as Hperm.
  assert (StronglySorted (fun a b => cmp a b <= 0) (sortBy cmp counts)) as Hsorted.
  { apply sortBy_sorted; unfold cmp; intros; lra. }
  assert (forall k v, In (k, v) counts ->
            v == inject_Z (Z.of_nat (count_occ String.string_dec flat k))) as Hval.
  { intros k v Hin. rewrite <- (countOf_In counts k v Hnd Hin), Hcount. cbn. ring. }
  destruct (sortBy cmp counts) as [|[c v] rest] eqn:Hsort.
  { exfalso. apply Permutation_nil in Hperm.
    destruct flat as [|x flat']; [contradiction|].
    assert (In x (map fst counts)) as Hx by (apply Hkeys; right; left; reflexivity).
    rewrite Hperm in Hx. destruct Hx. }
  assert (In (c, v) counts) as Htop by (apply (Permutation_in _ Hperm); left; reflexivity).
  exists c. split; [reflexivity|]. split.
  { apply (in_map fst) in Htop. apply Hkeys in Htop as [[]|Hin]. exact Hin. }
  intros c'.
  destruct (Nat.eq_dec (count_occ String.string_dec flat c') 0%nat) as [->|Hpos]; [lia|].
  assert (In c' flat) as Hin' by (apply (count_occ_In String.string_dec); lia).
  assert (In c' (map fst counts)) as Hkey by (apply Hkeys; right; exact Hin').
  apply in_map_iff in Hkey as ([k' v'] & Hk' & Hentry). cbn in Hk'. subst k'.
  assert (v' <= v) as Hle.
  { apply (Permutation_in _ (Permutation_sym Hperm)) in Hentry.
    destruct Hentry as [[= -> ->]|Hrest]; [apply Qle_refl|].
    apply StronglySorted_inv in Hsorted as [_ Hall].
    rewrite List.Forall_forall in Hall. specialize (Hall _ Hrest).
    unfold cmp in Hall. cbn in Hall. lra. }
  rewrite (Hval c v Htop), (Hval c' v' Hentry) in Hle.
  rewrite <- Zle_Qle in Hle. lia.
Qed.

(** X27. When the offers of a merchant name no category, the pick is the
    merchant's entry in the fallback table.  For a merchant the table does
    not know it is [null], unless the merchant id is the name of a member of
    [Object.prototype] ("constructor", "toString", ...): then it is that
    inherited member, which is no category. *)
Theorem pickCategoryFromOffers_fallback
    (offersForMerchant : list Offer.t) (merchantId : string) :
  allCategories offersForMerchant = [] ->
  pickCategoryFromOffers offersForMerchant merchantId
  = Some (match MERCHANT_CATEGORY_FALLBACKS !! merchantId with
          | Some c => PickedCategory c
          | None => if inheritedKey merchantId then PickedInherited merchantId
                    else PickedNull
          end)
  /\ (merchantId ∉ dom MERCHANT_CATEGORY_FALLBACKS ->
      pickCategoryFromOffers offersForMerchant merchantId
      = Some (if inheritedKey merchantId then PickedInherited merchantId else PickedNull)).
Proof.
  intros Hnone. unfold pickCategoryFromOffers, countCategories.
  rewrite countCategories_flat. fold (allCategories offersForMerchant). rewrite Hnone.
  cbn [forallb fold_left sortBy foldr]. unfold fallbackCategory.
  destruct (MERCHANT_CATEGORY_FALLBACKS !! merchantId) as [c|] eqn:Hc.
  - assert (truthyStr (Some c) = true) as ->.
    { unfold truthyStr. destruct (String.eqb_spec c "") as [->|_]; [|reflexivity].
      exfalso. apply elem_of_list_to_map_2 in Hc. revert Hc.
      rewrite !elem_of_cons, elem_of_nil. intuition discriminate. }
    split; [reflexivity|]. intros Hdom. exfalso. apply Hdom, elem_of_dom. eauto.
  - split; reflexivity.
Qed.

(** ** The wallet and the rotating payload *)

Lemma pickChoice_In (choices : list Choice.t) (first : Choice.t) (choice : string) :
  In first choices -> In (pickChoice choices first choice) choices.
Proof.
  intros Hfirst. unfold pickChoice.
  destruct (find _ choices) as [x|] eqn:Hfind; [|exact Hfirst].
  apply find_some in Hfind as [Hin _]. exact Hin.
Qed.

(** Every card of the wallet is an owned card of the catalog, with the
    categories of the stored choice if it is one of the two special cards. *)
Lemma ownedCards_In (cardsCatalog : list Card.t) (ownedIds : list string)
    (boaCcpChoice citiCustomChoice : string) (card' : Card.t) :
  In card' (ownedCards cardsCatalog ownedIds boaCcpChoice citiCustomChoice) ->
  exists c,
    In c cardsCatalog
    /\ includes ownedIds (Card.id c) = true
    /\ card'
       = if String.eqb (Card.id c) "citi_custom_cash" then
           withCategories c
             (Some (Choice.inject
                      (pickChoice CITI_CUSTOM_CASH_CHOICES citiGrocery citiCustomChoice)))
         else if String.eqb (Card.id c) "boa_ccp" then
           withCategories c
             (Some (Choice.inject (pickChoice BOA_CCP_CHOICES boaOnline boaCcpChoice)
                    ∪ delete "chosen"%string (default ∅ (Card.categories c))))
         else c.
Proof.
  unfold ownedCards.
  set (boaStep := fun c : Card.t => if negb (String.eqb (Card.id c) "boa_ccp") then c else _).
  set (citiStep := fun c : Card.t =>
                     if negb (String.eqb (Card.id c) "citi_custom_cash") then c else _).
  set (owned := List.filter _ cardsCatalog).
  assert (forall c, In c owned -> In c cardsCatalog /\ includes ownedIds (Card.id c) = true)
    as Howned by (intros c; apply filter_In).
  assert (forall c, In c owned ->
            In c cardsCatalog /\ includes ownedIds (Card.id c) = true
            /\ (if includes ownedIds "boa_ccp" then boaStep c else c)
               = (if String.eqb (Card.id c) "boa_ccp" then boaStep c else c)) as Hboa.
  { intros c [Hc Hown]%Howned. repeat split; [exact Hc|exact Hown|].
    destruct (String.eqb_spec (Card.id c) "boa_ccp") as [E|Hne].
    - rewrite E in Hown. rewrite Hown. reflexivity.
    - destruct (includes ownedIds "boa_ccp"); [|reflexivity].
      unfold boaStep. apply String.eqb_neq in Hne. rewrite Hne. reflexivity. }
  intros Hin.
  assert (exists c, In c owned
            /\ card' = (if includes ownedIds "citi_custom_cash"
                        then citiStep (if includes ownedIds "boa_ccp" then boaStep c else c)
                        else (if includes ownedIds "boa_ccp" then boaStep c else c)))
    as (c & Hc & ->).
  { destruct (includes ownedIds "citi_custom_cash"), (includes ownedIds "boa_ccp");
      repeat (apply in_map_iff in Hin as (? & <- & Hin)); eauto. }
  destruct (Hboa c Hc) as (Hcat & Hown & ->). exists c. repeat split; [exact Hcat|exact Hown|].
  destruct (String.eqb_spec (Card.id c) "citi_custom_cash") as [E|Hne].
  - assert (String.eqb (Card.id c) "boa_ccp" = false) as -> by (rewrite E; reflexivity).
    rewrite E in Hown. rewrite Hown. unfold citiStep. rewrite E. reflexivity.
  - apply String.eqb_neq in Hne.
    assert (forall x, Card.id x = Card.id c -> citiStep x = x) as Hciti.
    { intros x Hx. unfold citiStep. rewrite Hx, Hne. reflexivity. }
    assert (Card.id (if String.eqb (Card.id c) "boa_ccp" then boaStep c else c) = Card.id c)
      as Hid.
    { unfold boaStep. destruct (String.eqb (Card.id c) "boa_ccp"); reflexivity. }
    destruct (includes ownedIds "citi_custom_cash"); [rewrite (Hciti _ Hid)|];
      unfold boaStep; destruct (String.eqb (Card.id c) "boa_ccp"); reflexivity.
Qed.

Ltac lookup_in_literal H :=
  repeat (apply lookup_insert_Some in H as [[_ H]|[_ H]]; [subst; try reflexivity|]);
  try (apply lookup_singleton_Some in H as [_ H]; subst; reflexivity);
  try (rewrite lookup_empty in H; discriminate).

Lemma BOA_CCP_CHOICES_rate (choice : Choice.t) (cat : string) (v : Q) :
  In choice BOA_CCP_CHOICES -> Choice.inject choice !! cat = Some v -> v = 3.
Proof.
  unfold BOA_CCP_CHOICES. cbn [In].
  intros [<-|[<-|[<-|[<-|[<-|[<-|[]]]]]]] H; cbn [Choice.inject boaOnline] in H;
    lookup_in_literal H.
Qed.

Lemma BOA_CCP_CHOICES_no_chosen (choice : Choice.t) :
  In choice BOA_CCP_CHOICES -> Choice.inject choice !! "chosen"%string = None.
Proof.
  unfold BOA_CCP_CHOICES. cbn [In].
  intros [<-|[<-|[<-|[<-|[<-|[<-|[]]]]]]]; reflexivity.
Qed.

Lemma CITI_CUSTOM_CASH_CHOICES_rate (choice : Choice.t) (cat : string) (v : Q) :
  In choice CITI_CUSTOM_CASH_CHOICES -> Choice.inject choice !! cat = Some v -> v = 5.
Proof.
  unfold CITI_CUSTOM_CASH_CHOICES. cbn [In].
  intros [<-|[<-|[<-|[<-|[<-|[<-|[<-|[<-|[]]]]]]]]] H; cbn [Choice.inject citiGrocery] in H;
    lookup_in_literal H.
Qed.

(** X28. In the wallet, the Bank of America card earns 3 in every category
    of the stored choice (of the first choice, "online", when the stored id
    is not in the table), keeps the catalog's rate in the other categories,
    and never has a "chosen" category. *)
Theorem ownedCards_boa_choice
    (cardsCatalog : list Card.t) (ownedIds : list string)
    (boaCcpChoice citiCustomChoice : string) (card' : Card.t) :
  In card' (ownedCards cardsCatalog ownedIds boaCcpChoice citiCustomChoice) ->
  Card.id card' = "boa_ccp"%string ->
  let choice := pickChoice BOA_CCP_CHOICES boaOnline boaCcpChoice in
  In choice BOA_CCP_CHOICES
  /\ (forall cat, is_Some (Choice.inject choice !! cat) -> staticMultiplier card' cat = 3)
  /\ default ∅ (Card.categories card') !! "chosen"%string = None
  /\ exists c, In c cardsCatalog /\ Card.id c = "boa_ccp"%string
               /\ forall cat, Choice.inject choice !! cat = None -> cat <> "chosen"%string ->
                              staticMultiplier card' cat = staticMultiplier c cat.
Proof.
  intros (c & Hc & _ & ->)%ownedCards_In Hid choice.
  assert (In choice BOA_CCP_CHOICES) as Hchoice by (apply pickChoice_In; left; reflexivity).
  assert (Card.id c = "boa_ccp"%string) as Hcid.
  { destruct (String.eqb (Card.id c) "citi_custom_cash"),
             (String.eqb (Card.id c) "boa_ccp"); exact Hid. }
  rewrite Hcid. cbn [String.eqb Ascii.eqb Bool.eqb]. fold choice.
  split; [exact Hchoice|]. unfold staticMultiplier.
  cbn [withCategories Card.categories Card.base default from_option id].
  split; [|split].
  - intros cat [v Hv]. rewrite (lookup_union_Some_l _ _ _ _ Hv).
    apply (BOA_CCP_CHOICES_rate choice cat v Hchoice Hv).
  - apply lookup_union_None. split; [apply BOA_CCP_CHOICES_no_chosen, Hchoice|].
    apply lookup_delete_eq.
  - exists c. repeat split; [exact Hc|exact Hcid|]. intros cat Hnone Hne.
    rewrite lookup_union_r by exact Hnone.
    rewrite lookup_delete_ne by congruence. reflexivity.
Qed.

(** X29. In the wallet, the Citi card has the categories of the stored
    choice (of the first choice, "grocery", when the stored id is not in the
    table) and no other: it earns 5 there and its base multiplier everywhere
    else, whatever categories the catalog gave it. *)
Theorem ownedCards_citi_choice
    (cardsCatalog : list Card.t) (ownedIds : list string)
    (boaCcpChoice citiCustomChoice : string) (card' : Card.t) :
  In card' (ownedCards cardsCatalog ownedIds boaCcpChoice citiCustomChoice) ->
  Card.id card' = "citi_custom_cash"%string ->
  let choice := pickChoice CITI_CUSTOM_CASH_CHOICES citiGrocery citiCustomChoice in
  In choice CITI_CUSTOM_CASH_CHOICES
  /\ Card.categories card' = Some (Choice.inject choice)
  /\ (forall cat, is_Some (Choice.inject choice !! cat) -> staticMultiplier card' cat = 5)
  /\ (forall cat, Choice.inject choice !! cat = None ->
                  staticMultiplier card' cat = numberOr (Card.base card') 1).
Proof.
  intros (c & Hc & _ & ->)%ownedCards_In Hid choice.
  assert (In choice CITI_CUSTOM_CASH_CHOICES) as Hchoice
    by (apply pickChoice_In; left; reflexivity).
  assert (Card.id c = "citi_custom_cash"%string) as Hcid.
  { destruct (String.eqb_spec (Card.id c) "citi_custom_cash") as [E|_]; [exact E|].
    destruct (String.eqb_spec (Card.id c) "boa_ccp") as [E|_]; cbn in Hid; congruence. }
  rewrite Hcid. cbn [String.eqb Ascii.eqb Bool.eqb]. fold choice.
  split; [exact Hchoice|]. split; [reflexivity|]. unfold staticMultiplier.
  cbn [withCategories Card.categories Card.base default from_option id].
  split.
  - intros cat [v Hv]. rewrite Hv.
    apply (CITI_CUSTOM_CASH_CHOICES_rate choice cat v Hchoice Hv).
  - intros cat ->. reflexivity.
Qed.



(** ** The further properties on the sample data *)

Lemma valueFor_cashback_ignores_cpp_witness :
  valueFor (fmt:=exactFormat) (withCppDefault groceryCard (Some 2))
    (withOverrides (sampleParams 5000 ∅) {[ "cashback"%string := 7 ]}) [emptyMultiplierOffer]
  = valueFor (fmt:=exactFormat) groceryCard (sampleParams 5000 ∅) [emptyMultiplierOffer].
Proof.
  apply (valueFor_cashback_ignores_cpp (fmt:=exactFormat) groceryCard (sampleParams 5000 ∅)
           [emptyMultiplierOffer] {[ "cashback"%string := 7 ]} (Some 2)).
  reflexivity.
Defined.

Lemma valueFor_offer_order_irrelevant_witness :
  Valuation.baseValue
    (valueFor (fmt:=exactFormat) groceryCard (sampleParams 50000 ∅) [cappedOffer; creditOffer])
  = Valuation.baseValue
      (valueFor (fmt:=exactFormat) groceryCard (sampleParams 50000 ∅) [creditOffer; cappedOffer])
  /\ Valuation.bonusValue
       (valueFor (fmt:=exactFormat) groceryCard (sampleParams 50000 ∅) [cappedOffer; creditOffer])
     == Valuation.bonusValue
          (valueFor (fmt:=exactFormat) groceryCard (sampleParams 50000 ∅)
             [creditOffer; cappedOffer])
  /\ Valuation.dollars
       (valueFor (fmt:=exactFormat) groceryCard (sampleParams 50000 ∅) [cappedOffer; creditOffer])
     == Valuation.dollars
          (valueFor (fmt:=exactFormat) groceryCard (sampleParams 50000 ∅)
             [creditOffer; cappedOffer]).
Proof.
  apply (valueFor_offer_order_irrelevant (fmt:=exactFormat) groceryCard (sampleParams 50000 ∅)
           [cappedOffer; creditOffer] [creditOffer; cappedOffer]).
  apply perm_swap.
Defined.

Lemma groceryCard_nonneg : cardNonneg groceryCard.
Proof.
  split; [discriminate|]. split; [exact I|]. split; [|constructor].
  apply map_Forall_singleton. discriminate.
Qed.

Lemma valueFor_offer_never_lowers_witness :
  Valuation.bonusValue
    (valueFor (fmt:=exactFormat) groceryCard (sampleParams 50000 ∅) ([creditOffer] ++ []))
  <= Valuation.bonusValue
       (valueFor (fmt:=exactFormat) groceryCard (sampleParams 50000 ∅)
          ([creditOffer] ++ cappedOffer :: []))
  /\ Valuation.dollars
       (valueFor (fmt:=exactFormat) groceryCard (sampleParams 50000 ∅) ([creditOffer] ++ []))
     <= Valuation.dollars
          (valueFor (fmt:=exactFormat) groceryCard (sampleParams 50000 ∅)
             ([creditOffer] ++ cappedOffer :: [])).
Proof.
  apply (valueFor_offer_never_lowers (fmt:=exactFormat) groceryCard (sampleParams 50000 ∅)
           [creditOffer] [] cappedOffer).
  - exact groceryCard_nonneg.
  - apply map_Forall_empty.
  - repeat split; try exact I; discriminate.
  - discriminate.
Defined.

Lemma offer_outside_window_or_category_ignored_witness :
  valueFor (fmt:=exactFormat) groceryCard (sampleParams 5000 ∅)
    ([cappedOffer] ++ expiredOffer :: [])
  = valueFor (fmt:=exactFormat) groceryCard (sampleParams 5000 ∅) ([cappedOffer] ++ []).
Proof.
  apply (offer_outside_window_or_category_ignored (fmt:=exactFormat) expiredOffer groceryCard
           (sampleParams 5000 ∅) [cappedOffer] []).
  left. reflexivity.
Defined.

Lemma offer_of_unknown_type_ignored_witness :
  valueFor (fmt:=exactFormat) groceryCard (sampleParams 5000 ∅)
    ([cappedOffer] ++ portalOffer :: [])
  = valueFor (fmt:=exactFormat) groceryCard (sampleParams 5000 ∅) ([cappedOffer] ++ []).
Proof.
  apply (offer_of_unknown_type_ignored (fmt:=exactFormat) portalOffer groceryCard
           (sampleParams 5000 ∅) [cappedOffer] []); try discriminate.
  reflexivity.
Defined.

Lemma statement_credit_below_min_spend_ignored_witness :
  valueFor (fmt:=exactFormat) groceryCard (sampleParams 1999 ∅) ([] ++ creditOffer :: [])
  = valueFor (fmt:=exactFormat) groceryCard (sampleParams 1999 ∅) ([] ++ []).
Proof.
  apply (statement_credit_below_min_spend_ignored (fmt:=exactFormat) creditOffer groceryCard
           (sampleParams 1999 ∅) [] []).
  - reflexivity.
  - reflexivity.
  - reflexivity.
Defined.

Lemma statement_credit_fixed_amount_wins_witness :
  Acc.bonusValue (offerStep (fmt:=exactFormat) groceryCard (sampleParams 5000 ∅) 1 freshAcc
                    fixedCreditOffer)
  = Acc.bonusValue freshAcc + 500 / 100
  /\ Acc.notes (offerStep (fmt:=exactFormat) groceryCard (sampleParams 5000 ∅) 1 freshAcc
                  fixedCreditOffer)
     = Acc.notes freshAcc ++ [money (fmt:=exactFormat) (500 / 100) +:+ " statement credit"].
Proof.
  apply (statement_credit_fixed_amount_wins (fmt:=exactFormat) groceryCard
           (sampleParams 5000 ∅) 1 freshAcc fixedCreditOffer 500).
  - reflexivity.
  - reflexivity.
  - discriminate.
  - reflexivity.
Defined.

Lemma points_multiplier_without_multiplier_witness :
  Acc.bonusValue (offerStep (fmt:=exactFormat) pointsCard (sampleParams 5000 ∅) 1 freshAcc
                    emptyMultiplierOffer)
  == Acc.bonusValue freshAcc
  /\ Acc.notes (offerStep (fmt:=exactFormat) pointsCard (sampleParams 5000 ∅) 1 freshAcc
                  emptyMultiplierOffer)
     = Acc.notes freshAcc ++ ["+" +:+ numberToString (NumberFormat:=exactFormat) 0 +:+ "x points"].
Proof.
  apply (points_multiplier_without_multiplier (fmt:=exactFormat) pointsCard
           (sampleParams 5000 ∅) 1 freshAcc emptyMultiplierOffer); reflexivity.
Defined.

Lemma rotating_amount_within_cap_witness :
  Valuation.baseValue
    (valueFor (fmt:=exactFormat) rotatingCard (sampleParams 50000 activatedState) [cappedOffer])
  == 0
  /\ Valuation.bonusValue
       (valueFor (fmt:=exactFormat) rotatingCard (sampleParams 50000 activatedState) [])
     == 25.
Proof.
  destruct (rotating_amount_within_cap (fmt:=exactFormat) rotatingCard
              (sampleParams 50000 activatedState) [cappedOffer]
              (windowOf groceryRule
                 {| UserState.activated := true; UserState.remainingCapCents := Some 100000 |}))
    as [Hbase Hbonus].
  - reflexivity.
  - reflexivity.
  - reflexivity.
  - vm_compute. discriminate.
  - split; [exact Hbase|]. rewrite Hbonus. vm_compute. reflexivity.
Defined.

Lemma rotating_cap_exhausted_witness :
  Valuation.baseValue
    (valueFor (fmt:=exactFormat) rotatingCard (sampleParams 50000 exhaustedState)
       [cappedOffer])
  == 5
  /\ Valuation.bonusValue
       (valueFor (fmt:=exactFormat) rotatingCard (sampleParams 50000 exhaustedState)
          [cappedOffer])
     == Valuation.bonusValue
          (valueFor (fmt:=exactFormat) (withRotatingRules rotatingCard None)
             (sampleParams 50000 exhaustedState) [cappedOffer])
  /\ Valuation.bonusValue
       (valueFor (fmt:=exactFormat) rotatingCard (sampleParams 50000 exhaustedState) [])
     == 0.
Proof.
  destruct (rotating_cap_exhausted (fmt:=exactFormat) rotatingCard
              (sampleParams 50000 exhaustedState) [cappedOffer]
              (windowOf groceryRule
                 {| UserState.activated := true; UserState.remainingCapCents := Some 0 |}))
    as (Hbase & Hbonus & Hzero).
  - reflexivity.
  - reflexivity.
  - reflexivity.
  - vm_compute. discriminate.
  - vm_compute. discriminate.
  - split; [rewrite Hbase; vm_compute; reflexivity|].
    split; [exact Hbonus|exact Hzero].
Defined.

Lemma rotating_not_activated_same_as_no_rule_witness :
  Valuation.notes
    (valueFor (fmt:=exactFormat) rotatingCard (sampleParams 50000 ∅) [cappedOffer])
  = "Activation required for rotating bonus"%string
    :: Valuation.notes
         (valueFor (fmt:=exactFormat) (withRotatingRules rotatingCard None)
            (sampleParams 50000 ∅) [cappedOffer]).
Proof.
  destruct (rotating_not_activated_same_as_no_rule (fmt:=exactFormat) rotatingCard
              (sampleParams 50000 ∅) [cappedOffer] (windowOf groceryRule UserState.empty))
    as (_ & _ & _ & Hnotes).
  - reflexivity.
  - reflexivity.
  - reflexivity.
  - exact Hnotes.
Defined.

Lemma activeRotatingWindow_without_user_state_witness :
  exists r rules,
    Card.rotating_rules twoRuleCard = Some rules /\ In r rules
    /\ ruleMatches r "grocery" "2025-03-15T12:00:00.000Z" = true
    /\ Window.active (windowOf groceryRule UserState.empty)
       = negb (Rule.activation_required r)
    /\ Window.remainingCapCents (windowOf groceryRule UserState.empty)
       == Qmax 0 (default 0 (Rule.cap_cents r)).
Proof.
  apply (activeRotatingWindow_without_user_state twoRuleCard "grocery"
           "2025-03-15T12:00:00.000Z" ∅ (windowOf groceryRule UserState.empty)).
  - reflexivity.
  - reflexivity.
Defined.

Lemma rule_window_misses_first_second_witness :
  ruleWindowContains openRule ("2025-01-01" +:+ "T00:00:00." +:+ "000Z") = false.
Proof.
  apply (rule_window_misses_first_second openRule "2025-01-01" "000Z").
  - reflexivity.
  - discriminate.
Defined.

Lemma rankCards_head_is_best_witness :
  exists top rest,
    rankCards (fmt:=exactFormat) [pointsCard; groceryCard; rotatingCard]
      (sampleParams 200000 activatedState) ∅ = top :: rest
    /\ Valuation.dollars
         (valueFor (fmt:=exactFormat) groceryCard (sampleParams 200000 activatedState)
            (default [] ((∅ : gmap string (list Offer.t)) !! Card.id groceryCard)))
       <= Ranked.dollars top.
Proof.
  apply (rankCards_head_is_best (fmt:=exactFormat) [pointsCard; groceryCard; rotatingCard]
           (sampleParams 200000 activatedState) ∅ groceryCard).
  right. left. reflexivity.
Defined.

Lemma offerIsEligible_listed_scope_witness :
  offerIsEligible scopedOffer (map Card.id [groceryCard; pointsCard])
  = existsb (offerAppliesToCard scopedOffer) [groceryCard; pointsCard].
Proof.
  apply (offerIsEligible_listed_scope scopedOffer [groceryCard; pointsCard]
           (JsString "sapphire") [JsString "amex_gold"]).
  reflexivity.
Defined.

Lemma offerIsEligible_but_never_applied_witness :
  offerIsEligible nullScopeOffer ["grocer"%string] = true
  /\ offerAppliesToCard nullScopeOffer groceryCard = false.
Proof.
  apply (offerIsEligible_but_never_applied nullScopeOffer ["grocer"%string] groceryCard).
  right. split; [reflexivity|discriminate].
Defined.

Lemma pickCategoryFromOffers_most_frequent_witness :
  exists c,
    pickCategoryFromOffers
      [categoryOffer "a" ["online"; "dining"]; categoryOffer "b" ["dining"]]%string "levis"
    = Some (PickedCategory c)
    /\ In c (allCategories
               [categoryOffer "a" ["online"; "dining"]; categoryOffer "b" ["dining"]]%string)
    /\ forall c',
         (occurrences
            [categoryOffer "a" ["online"; "dining"]; categoryOffer "b" ["dining"]]%string c'
          <= occurrences
               [categoryOffer "a" ["online"; "dining"]; categoryOffer "b" ["dining"]]%string c)%nat.
Proof.
  apply (pickCategoryFromOffers_most_frequent
           [categoryOffer "a" ["online"; "dining"]; categoryOffer "b" ["dining"]]%string "levis").
  - discriminate.
  - repeat constructor.
Defined.

Lemma pickCategoryFromOffers_fallback_witness :
  pickCategoryFromOffers [cappedOffer] "nordstrom"
  = Some (PickedCategory "department_store")
  /\ pickCategoryFromOffers [cappedOffer] "toString" = Some (PickedInherited "toString")
  /\ pickCategoryFromOffers [cappedOffer] "walmart" = Some PickedNull.
Proof.
  split; [|split].
  - rewrite (proj1 (pickCategoryFromOffers_fallback [cappedOffer] "nordstrom" eq_refl)).
    reflexivity.
  - rewrite (proj1 (pickCategoryFromOffers_fallback [cappedOffer] "toString" eq_refl)).
    reflexivity.
  - rewrite (proj1 (pickCategoryFromOffers_fallback [cappedOffer] "walmart" eq_refl)).
    reflexivity.
Defined.

Lemma ownedCards_boa_choice_witness :
  let card' :=
    withCategories boaCard
      (Some (Choice.inject (pickChoice BOA_CCP_CHOICES boaOnline "gas_ev")
             ∪ delete "chosen"%string (default ∅ (Card.categories boaCard)))) in
  let choice := pickChoice BOA_CCP_CHOICES boaOnline "gas_ev" in
  In choice BOA_CCP_CHOICES
  /\ (forall cat, is_Some (Choice.inject choice !! cat) -> staticMultiplier card' cat = 3)
  /\ default ∅ (Card.categories card') !! "chosen"%string = None
  /\ exists c, In c sampleCatalog /\ Card.id c = "boa_ccp"%string
               /\ forall cat, Choice.inject choice !! cat = None -> cat <> "chosen"%string ->
                              staticMultiplier card' cat = staticMultiplier c cat.
Proof.
  intros card'.
  apply (ownedCards_boa_choice sampleCatalog ["boa_ccp"; "citi_custom_cash"]%string
           "gas_ev" "transit" card').
  - left. reflexivity.
  - reflexivity.
Defined.

Lemma ownedCards_citi_choice_witness :
  let card' :=
    withCategories citiCard
      (Some (Choice.inject (pickChoice CITI_CUSTOM_CASH_CHOICES citiGrocery "transit"))) in
  let choice := pickChoice CITI_CUSTOM_CASH_CHOICES citiGrocery "transit" in
  In choice CITI_CUSTOM_CASH_CHOICES
  /\ Card.categories card' = Some (Choice.inject choice)
  /\ (forall cat, is_Some (Choice.inject choice !! cat) -> staticMultiplier card' cat = 5)
  /\ (forall cat, Choice.inject choice !! cat = None ->
                  staticMultiplier card' cat = numberOr (Card.base card') 1).
Proof.
  intros card'.
  apply (ownedCards_citi_choice sampleCatalog ["boa_ccp"; "citi_custom_cash"]%string
           "gas_ev" "transit" card').
  - right. left. reflexivity.
  - reflexivity.
Defined.

